(** * Employee records manager: record store and table view engine

    A shallow embedding of

    - [server/storage.ts]: the in-memory record store [MemStorage];
    - the [DataTable] component: the derivation pipeline
      filter -> sort -> paginate and the sort and selection handlers.

    JavaScript values are modelled as follows.  Strings are [string], the
    sequence of the codes of their characters in ISO 8859-7 (ASCII and
    Greek); the numbers that occur (salaries, page
    numbers, page sizes, array indices) are integers and are modelled as [Z];
    a [Date] is its time value in milliseconds, a [Z]; a [Map<string, V>] is a
    [gmap string V]; a [Set<string>] is a [gset string]; an array is a
    [list]. *)

From Stdlib Require Import ZArith Ascii String List Sorted Permutation Lia.
From stdpp Require Import gmap strings list list_numbers sorting.

Local Open Scope Z_scope.

(** ** The shared schema *)

(** Modelled from the spec: the module [@shared/schema] that declares the
    types [Employee], [InsertEmployee] and [User] is not part of the
    sources.  The fields of [Employee] are those of the object literals in
    [initializeSampleData]; [InsertEmployee] is [Employee] without the two
    fields that [createEmployee] generates ([id] and [createdAt]). *)
Module Employee.
Record t : Type := mk {
  id : string;
  name : string;
  email : string;
  department : string;
  role : string;
  salary : Z;
  status : string;
  avatar : option string;
  employeeId : string;
  createdAt : Z
}.
End Employee.

Module InsertEmployee.
Record t : Type := mk {
  name : string;
  email : string;
  department : string;
  role : string;
  salary : Z;
  status : string;
  avatar : option string;
  employeeId : string
}.
End InsertEmployee.

(** [Partial<InsertEmployee>]: every field of [InsertEmployee] may be
    present ([Some v]) or missing ([None]). *)
Module PartialInsertEmployee.
Record t : Type := mk {
  name : option string;
  email : option string;
  department : option string;
  role : option string;
  salary : option Z;
  status : option string;
  avatar : option (option string);
  employeeId : option string
}.

(** The object literal [{}]. *)
Definition empty : t := mk None None None None None None None None.
End PartialInsertEmployee.

Module User.
Record t : Type := mk {
  id : string;
  username : string;
  password : string
}.
End User.

Module InsertUser.
Record t : Type := mk {
  username : string;
  password : string
}.
End InsertUser.

(** ** The record store ([server/storage.ts]) *)

Module Storage.

(** The settled state of the promise an [async] method returns: resolved
    with the value the body returns, or rejected with what it throws. *)
Inductive Promise (A : Type) : Type :=
| Resolved (value : A)
| Rejected (reason : string).
Arguments Resolved {A} value.
Arguments Rejected {A} reason.

(** The two private maps of [class MemStorage]. *)
Record MemStorage : Type := mkMemStorage {
  users : gmap string User.t;
  employees : gmap string Employee.t
}.

(** An [async] method of the store: it runs on the current maps and gives
    the settled promise and the maps afterwards. *)
Definition Async (A : Type) : Type := MemStorage -> Promise A * MemStorage.

Definition ret {A} (a : A) : Async A := fun s => (Resolved a, s).

Definition bind {A B} (m : Async A) (k : A -> Async B) : Async B :=
  fun s =>
    match m s with
    | (Resolved a, s') => k a s'
    | (Rejected r, s') => (Rejected r, s')
    end.

Definition employees_get (id : string) : Async (option Employee.t) :=
  fun s => (Resolved (employees s !! id), s).

Definition employees_set (id : string) (e : Employee.t) : Async unit :=
  fun s => (Resolved tt, mkMemStorage (users s) (<[id := e]> (employees s))).

(** [Map.prototype.delete] returns whether the key was present. *)
Definition employees_delete (id : string) : Async bool :=
  fun s =>
    (Resolved (bool_decide (is_Some (employees s !! id))),
     mkMemStorage (users s) (delete id (employees s))).

Definition users_get (id : string) : Async (option User.t) :=
  fun s => (Resolved (users s !! id), s).

Definition users_set (id : string) (u : User.t) : Async unit :=
  fun s => (Resolved tt, mkMemStorage (<[id := u]> (users s)) (employees s)).

Notation "x <- m ;; k" := (bind m (fun x => k))
  (at level 100, m at next level, right associativity).
Notation "m ;;; k" := (bind m (fun _ => k))
  (at level 100, right associativity).

(** [{ ...insertUser, id }] *)
Definition spread_user (insertUser : InsertUser.t) (id : string) : User.t :=
  User.mk id (InsertUser.username insertUser) (InsertUser.password insertUser).

(** [{ ...insertEmployee, id, createdAt: new Date() }] *)
Definition spread_create (insertEmployee : InsertEmployee.t)
    (id : string) (createdAt : Z) : Employee.t :=
  Employee.mk id
    (InsertEmployee.name insertEmployee)
    (InsertEmployee.email insertEmployee)
    (InsertEmployee.department insertEmployee)
    (InsertEmployee.role insertEmployee)
    (InsertEmployee.salary insertEmployee)
    (InsertEmployee.status insertEmployee)
    (InsertEmployee.avatar insertEmployee)
    (InsertEmployee.employeeId insertEmployee)
    createdAt.

(** [{ ...employee, ...updateData }]: a field present in [updateData]
    replaces the field of [employee]. *)
Definition spread_update (employee : Employee.t)
    (updateData : PartialInsertEmployee.t) : Employee.t :=
  Employee.mk (Employee.id employee)
    (default (Employee.name employee) (PartialInsertEmployee.name updateData))
    (default (Employee.email employee) (PartialInsertEmployee.email updateData))
    (default (Employee.department employee)
       (PartialInsertEmployee.department updateData))
    (default (Employee.role employee) (PartialInsertEmployee.role updateData))
    (default (Employee.salary employee) (PartialInsertEmployee.salary updateData))
    (default (Employee.status employee) (PartialInsertEmployee.status updateData))
    (default (Employee.avatar employee) (PartialInsertEmployee.avatar updateData))
    (default (Employee.employeeId employee)
       (PartialInsertEmployee.employeeId updateData))
    (Employee.createdAt employee).

Definition getUser (id : string) : Async (option User.t) :=
  users_get id.

(** [randomUUID()] is an input of the model: [uuid] is the value the call
    produced. *)
Definition createUser (insertUser : InsertUser.t) (uuid : string)
    : Async User.t :=
  let id := uuid in
  let user := spread_user insertUser id in
  users_set id user ;;;
  ret user.

Definition getEmployee (id : string) : Async (option Employee.t) :=
  employees_get id.

(** [randomUUID()] and [new Date()] are inputs of the model: [uuid] and
    [now] are the values the two calls produced. *)
Definition createEmployee (insertEmployee : InsertEmployee.t)
    (uuid : string) (now : Z) : Async Employee.t :=
  let id := uuid in
  let employee := spread_create insertEmployee id now in
  employees_set id employee ;;;
  ret employee.

Definition updateEmployee (id : string)
    (updateData : PartialInsertEmployee.t) : Async (option Employee.t) :=
  employee <- employees_get id ;;
  match employee with
  | None => ret None
  | Some employee =>
      let updatedEmployee := spread_update employee updateData in
      employees_set id updatedEmployee ;;;
      ret (Some updatedEmployee)
  end.

Definition deleteEmployee (id : string) : Async bool :=
  employees_delete id.

(** The fields of a stored record that come from the creation input: the
    record without its [id] and its [createdAt]. *)
Definition input_fields (employee : Employee.t) : InsertEmployee.t :=
  InsertEmployee.mk
    (Employee.name employee) (Employee.email employee)
    (Employee.department employee) (Employee.role employee)
    (Employee.salary employee) (Employee.status employee)
    (Employee.avatar employee) (Employee.employeeId employee).


(** The sample rows of [initializeSampleData]; [t0] is the time of
    construction. *)
Definition sampleEmployees (t0 : Z) : list Employee.t :=
  [ Employee.mk "1" "Sarah Johnson" "sarah.johnson@company.com"
      "Engineering" "Senior Developer" 95000 "active"
      (Some "https://images.unsplash.com/photo-1494790108755-2616b612b786?ixlib=rb-4.0.3&ixid=MnwxMjA3fDB8MHxwaG90by1wYWdlfHx8fGVufDB8fHx8&auto=format&fit=crop&w=200&h=200")
      "EMP001" t0;
    Employee.mk "2" "Michael Chen" "michael.chen@company.com"
      "Marketing" "Marketing Manager" 85000 "active"
      (Some "https://images.unsplash.com/photo-1472099645785-5658abf4ff4e?ixlib=rb-4.0.3&ixid=MnwxMjA3fDB8MHxwaG90by1wYWdlfHx8fGVufDB8fHx8&auto=format&fit=crop&w=200&h=200")
      "EMP002" t0;
    Employee.mk "3" "Emma Davis" "emma.davis@company.com"
      "Design" "UX Designer" 78000 "on-leave"
      (Some "https://images.unsplash.com/photo-1438761681033-6461ffad8d80?ixlib=rb-4.0.3&ixid=MnwxMjA3fDB8MHxwaG90by1wYWdlfHx8fGVufDB8fHx8&auto=format&fit=crop&w=200&h=200")
      "EMP003" t0;
    Employee.mk "4" "David Rodriguez" "david.rodriguez@company.com"
      "Sales" "Sales Representative" 65000 "active"
      (Some "https://images.unsplash.com/photo-1507003211169-0a1dd7228f2d?ixlib=rb-4.0.3&ixid=MnwxMjA3fDB8MHxwaG90by1wYWdlfHx8fGVufDB8fHx8&auto=format&fit=crop&w=200&h=200")
      "EMP004" t0;
    Employee.mk "5" "Lisa Thompson" "lisa.thompson@company.com"
      "HR" "HR Manager" 72000 "inactive"
      (Some "https://images.unsplash.com/photo-1487412720507-e7ab37603c6f?ixlib=rb-4.0.3&ixid=MnwxMjA3fDB8MHxwaG90by1wYWdlfHx8fGVufDB8fHx8&auto=format&fit=crop&w=200&h=200")
      "EMP005" t0 ].

(** The constructor: empty maps, then [initializeSampleData]. *)
Definition new (t0 : Z) : MemStorage :=
  mkMemStorage ∅
    (foldl (fun m employee => <[Employee.id employee := employee]> m)
       ∅ (sampleEmployees t0)).

End Storage.

(** ** The store with the insertion order of its maps

    [Storage] keeps the two maps as finite maps, which is all that [get],
    [set] and [delete] observe.  [getEmployees] and [getUserByUsername]
    enumerate the values of a map, and a JavaScript [Map] enumerates in
    insertion order; here the maps keep that order. *)

(** [Map<string, V>]: the entries in insertion order, oldest first. *)
Module JsMap.

Definition t (V : Type) : Type := list (string * V).

Definition empty {V} : t V := [].

(** [Map.prototype.get] *)
Fixpoint get {V} (k : string) (m : t V) : option V :=
  match m with
  | [] => None
  | (k', v') :: m' => if decide (k = k') then Some v' else get k m'
  end.

(** [Map.prototype.has] *)
Definition has {V} (k : string) (m : t V) : bool :=
  bool_decide (is_Some (get k m)).

(** [Map.prototype.set]: the value of an existing key is replaced where the
    entry stands; a new key is appended. *)
Fixpoint set {V} (k : string) (v : V) (m : t V) : t V :=
  match m with
  | [] => [(k, v)]
  | (k', v') :: m' =>
      if decide (k = k') then (k, v) :: m' else (k', v') :: set k v m'
  end.

(** [Map.prototype.delete]: the entry of the key is removed; [has] gives the
    boolean the method returns. *)
Definition delete {V} (k : string) (m : t V) : t V :=
  List.filter (fun entry => negb (bool_decide (fst entry = k))) m.

(** [Array.from(m.keys())] and [Array.from(m.values())] *)
Definition keys {V} (m : t V) : list string := map fst m.
Definition values {V} (m : t V) : list V := map snd m.

(** The finite map with the same entries. *)
Definition to_gmap {V} (m : t V) : gmap string V := list_to_map m.

End JsMap.

Module OrderedStorage.
Import Storage.

Record MemStorage : Type := mkMemStorage {
  users : JsMap.t User.t;
  employees : JsMap.t Employee.t
}.

Definition Async (A : Type) : Type := MemStorage -> Promise A * MemStorage.

(** The store of [Storage] that a store stands for. *)
Definition abs (s : MemStorage) : Storage.MemStorage :=
  Storage.mkMemStorage (JsMap.to_gmap (users s)) (JsMap.to_gmap (employees s)).

Definition getUser (id : string) : Async (option User.t) :=
  fun s => (Resolved (JsMap.get id (users s)), s).

(** [Array.from(this.users.values()).find(user => user.username === username)] *)
Definition getUserByUsername (username : string) : Async (option User.t) :=
  fun s =>
    (Resolved
       (List.find (fun user => bool_decide (User.username user = username))
          (JsMap.values (users s))),
     s).

Definition createUser (insertUser : InsertUser.t) (uuid : string)
    : Async User.t :=
  fun s =>
    let id := uuid in
    let user := spread_user insertUser id in
    (Resolved user, mkMemStorage (JsMap.set id user (users s)) (employees s)).

Definition getEmployees : Async (list Employee.t) :=
  fun s => (Resolved (JsMap.values (employees s)), s).

Definition getEmployee (id : string) : Async (option Employee.t) :=
  fun s => (Resolved (JsMap.get id (employees s)), s).

Definition createEmployee (insertEmployee : InsertEmployee.t)
    (uuid : string) (now : Z) : Async Employee.t :=
  fun s =>
    let id := uuid in
    let employee := spread_create insertEmployee id now in
    (Resolved employee,
     mkMemStorage (users s) (JsMap.set id employee (employees s))).

Definition updateEmployee (id : string)
    (updateData : PartialInsertEmployee.t) : Async (option Employee.t) :=
  fun s =>
    match JsMap.get id (employees s) with
    | None => (Resolved None, s)
    | Some employee =>
        let updatedEmployee := spread_update employee updateData in
        (Resolved (Some updatedEmployee),
         mkMemStorage (users s) (JsMap.set id updatedEmployee (employees s)))
    end.

Definition deleteEmployee (id : string) : Async bool :=
  fun s =>
    (Resolved (JsMap.has id (employees s)),
     mkMemStorage (users s) (JsMap.delete id (employees s))).

(** The constructor: empty maps, then [initializeSampleData]. *)
Definition new (t0 : Z) : MemStorage :=
  mkMemStorage JsMap.empty
    (foldl (fun m employee => JsMap.set (Employee.id employee) employee m)
       JsMap.empty (sampleEmployees t0)).

(** The keys of a map are pairwise different, and an entity is stored under
    its own identifier. *)
Definition employees_ok (m : JsMap.t Employee.t) : Prop :=
  NoDup (JsMap.keys m) /\ Forall (fun entry => Employee.id (snd entry) = fst entry) m.
Definition users_ok (m : JsMap.t User.t) : Prop :=
  NoDup (JsMap.keys m) /\ Forall (fun entry => User.id (snd entry) = fst entry) m.
Definition ok (s : MemStorage) : Prop :=
  users_ok (users s) /\ employees_ok (employees s).

(** A method on the ordered store does what the method of [Storage] does on
    the store without the order: the same result, and the same store
    afterwards. *)
Definition simulates {A} (m : Async A) (m' : Storage.Async A) : Prop :=
  forall s, fst (m s) = fst (m' (abs s)) /\ abs (snd (m s)) = snd (m' (abs s)).

(** [{ ...first, ...second }] on two partial inputs: a field of [second]
    wins over the field of [first]. *)
Definition spread_partial (first second : PartialInsertEmployee.t)
    : PartialInsertEmployee.t :=
  PartialInsertEmployee.mk
    (from_option Some (PartialInsertEmployee.name first)
       (PartialInsertEmployee.name second))
    (from_option Some (PartialInsertEmployee.email first)
       (PartialInsertEmployee.email second))
    (from_option Some (PartialInsertEmployee.department first)
       (PartialInsertEmployee.department second))
    (from_option Some (PartialInsertEmployee.role first)
       (PartialInsertEmployee.role second))
    (from_option Some (PartialInsertEmployee.salary first)
       (PartialInsertEmployee.salary second))
    (from_option Some (PartialInsertEmployee.status first)
       (PartialInsertEmployee.status second))
    (from_option Some (PartialInsertEmployee.avatar first)
       (PartialInsertEmployee.avatar second))
    (from_option Some (PartialInsertEmployee.employeeId first)
       (PartialInsertEmployee.employeeId second)).

End OrderedStorage.

(** ** The table view engine (the [DataTable] component) *)

(** [keyof Employee] *)
Module Column.
Inductive t : Type :=
| id | name | email | department | role | salary | status | avatar
| employeeId | createdAt.

#[global] Instance eq_dec : EqDecision t.
Proof. solve_decision. Defined.
End Column.

Module DataTable.

Inductive SortDirection : Type := asc | desc | null.
Inductive SelectionMode : Type := single | multiple | none.

#[global] Instance SortDirection_eq_dec : EqDecision SortDirection.
Proof. solve_decision. Defined.
#[global] Instance SelectionMode_eq_dec : EqDecision SelectionMode.
Proof. solve_decision. Defined.

(** *** Strings

    The characters of the model are those of ISO 8859-7 (ELOT 928): the
    ASCII characters, with codes 0 to 127, and in the upper half the Greek
    letters with their punctuation; a string is the sequence of the codes
    of its characters.  The codes 164, 165, 170, 174, 210 and 255 stand for
    no character. *)

Definition code_in (lo hi : nat) (c : ascii) : bool :=
  ((lo <=? nat_of_ascii c) && (nat_of_ascii c <=? hi))%nat.

Definition code_among (codes : list nat) (c : ascii) : bool :=
  existsb (Nat.eqb (nat_of_ascii c)) codes.

Definition shift (by_ : nat) (c : ascii) : ascii :=
  ascii_of_nat (nat_of_ascii c + by_).

(** The Greek capital letter sigma, and the two small letters that it has:
    sigma and final sigma. *)
Definition capital_sigma : ascii := ascii_of_nat 211.
Definition small_sigma : ascii := ascii_of_nat 243.
Definition final_sigma : ascii := ascii_of_nat 242.

(** The lower case mapping of Unicode on one character: [A]..[Z] (65..90)
    go to [a]..[z]; the Greek capital letters alpha to rho (193..209) and
    sigma to omega and the two with dialytika (211..219) go to the small
    letters 32 codes further, capital sigma to small sigma; the seven
    capital letters with tonos (182, 184..186, 188, 190, 191) go to their
    small letters (220..223, 252..254); every other character is kept. *)
Definition lower_char (c : ascii) : ascii :=
  if code_in 65 90 c || code_in 193 209 c || code_in 211 219 c then shift 32 c
  else if code_among [182%nat] c then shift 38 c
  else if code_in 184 186 c then shift 37 c
  else if code_among [188%nat] c then shift 64 c
  else if code_in 190 191 c then shift 63 c
  else c.

(** The property Cased of Unicode: the Latin letters (65..90, 97..122) and
    the Greek letters (182, 184..186, 188, 190..209, 211..254). *)
Definition cased (c : ascii) : bool :=
  code_in 65 90 c || code_in 97 122 c
  || code_among [182; 188]%nat c || code_in 184 186 c
  || code_in 190 209 c || code_in 211 254 c.

(** The property Case_Ignorable of Unicode: apostrophe, full stop, colon,
    circumflex and grave accent (39, 46, 58, 94, 96), the two single
    quotation marks (161, 162), diaeresis (168), soft hyphen (173), tonos
    and dialytika tonos (180, 181) and middle dot (183). *)
Definition case_ignorable (c : ascii) : bool :=
  code_among [39; 46; 58; 94; 96; 161; 162; 168; 173; 180; 181; 183]%nat c.

(** Going away from a character, over case-ignorable characters, the next
    character is a cased letter. *)
Fixpoint cased_next (s : string) : bool :=
  match s with
  | EmptyString => false
  | String c s' =>
      if cased c then true
      else if case_ignorable c then cased_next s'
      else false
  end.

(** The condition Final_Sigma of Unicode on a capital sigma: a cased letter
    comes before it and none comes after it, case-ignorable characters in
    between left aside.  [before] holds the characters before the sigma,
    the nearest first, [after] the ones after it. *)
Definition is_final_sigma (before after : string) : bool :=
  cased_next before && negb (cased_next after).

(** [String.prototype.toLowerCase]: every character goes to its lower
    case, and a capital sigma in final position goes to the final sigma.
    [before] holds the characters already passed, the nearest first. *)
Fixpoint lower_from (before s : string) : string :=
  match s with
  | EmptyString => EmptyString
  | String c s' =>
      String
        (if Ascii.eqb c capital_sigma && is_final_sigma before s'
         then final_sigma else lower_char c)
        (lower_from (String c before) s')
  end.

Definition toLowerCase (s : string) : string := lower_from EmptyString s.

(** The string holds a capital sigma. *)
Fixpoint has_capital_sigma (s : string) : bool :=
  match s with
  | EmptyString => false
  | String c s' => Ascii.eqb c capital_sigma || has_capital_sigma s'
  end.

(** The lower case of the characters of a string, one by one; it is what
    [toLowerCase] gives on a string without a capital sigma. *)
Fixpoint lower_chars (s : string) : string :=
  match s with
  | EmptyString => EmptyString
  | String c s' => String (lower_char c) (lower_chars s')
  end.

(** [String.prototype.includes]: [searchString] occurs in [s] at some
    position. *)
Fixpoint includes (s searchString : string) : bool :=
  String.prefix searchString s
  || match s with
     | EmptyString => false
     | String _ s' => includes s' searchString
     end.

(** *** Arrays *)

(** [Array.prototype.slice(start, end)]: a negative index counts from the
    end of the array, and both indices are clamped to the array. *)
Definition slice {A} (l : list A) (start end_ : Z) : list A :=
  let len := Z.of_nat (length l) in
  let k := if start <? 0 then Z.max (len + start) 0 else Z.min start len in
  let final := if end_ <? 0 then Z.max (len + end_) 0 else Z.min end_ len in
  take (Z.to_nat (final - k)) (drop (Z.to_nat k) l).

(** [Array.prototype.sort(compareFn)] is a stable sort: [a] is moved
    behind [b] only when [compareFn(a, b) > 0].  It is modelled by the
    stable insertion sort; for a comparator that is a total preorder every
    stable sort gives the same array. *)
Fixpoint sort_insert {A} (compareFn : A -> A -> Z) (a : A) (l : list A)
    : list A :=
  match l with
  | [] => [a]
  | b :: l' =>
      if compareFn a b >? 0 then b :: sort_insert compareFn a l'
      else a :: l
  end.

Definition sort {A} (compareFn : A -> A -> Z) (l : list A) : list A :=
  foldr (sort_insert compareFn) [] l.

(** [Math.ceil(a / b)] for integers [a] and [b > 0]. *)
Definition ceil_div (a b : Z) : Z := - ((- a) / b).

(** *** Property access [employee[column]] *)

Inductive JsValue : Type :=
| JsString (s : string)
| JsNumber (n : Z)
| JsNull
| JsDate (t : Z).

Definition prop (employee : Employee.t) (column : Column.t) : JsValue :=
  match column with
  | Column.id => JsString (Employee.id employee)
  | Column.name => JsString (Employee.name employee)
  | Column.email => JsString (Employee.email employee)
  | Column.department => JsString (Employee.department employee)
  | Column.role => JsString (Employee.role employee)
  | Column.salary => JsNumber (Employee.salary employee)
  | Column.status => JsString (Employee.status employee)
  | Column.avatar =>
      match Employee.avatar employee with
      | Some url => JsString url
      | None => JsNull
      end
  | Column.employeeId => JsString (Employee.employeeId employee)
  | Column.createdAt => JsDate (Employee.createdAt employee)
  end.

(** *** The state of the component *)

Record State : Type := mkState {
  searchTerm : string;
  sortColumn : Column.t;
  sortDirection : SortDirection;
  selectedRows : gset string;
  selectionMode : SelectionMode;
  currentPage : Z;
  pageSize : Z
}.

(** The arguments of the [useState] calls. *)
Definition initial : State :=
  {| searchTerm := "";
     sortColumn := Column.salary;
     sortDirection := desc;
     selectedRows := ∅;
     selectionMode := multiple;
     currentPage := 1;
     pageSize := 10 |}.

Definition setSearchTerm (v : string) (st : State) : State :=
  mkState v (sortColumn st) (sortDirection st) (selectedRows st)
    (selectionMode st) (currentPage st) (pageSize st).
Definition setSortColumn (v : Column.t) (st : State) : State :=
  mkState (searchTerm st) v (sortDirection st) (selectedRows st)
    (selectionMode st) (currentPage st) (pageSize st).
Definition setSortDirection (v : SortDirection) (st : State) : State :=
  mkState (searchTerm st) (sortColumn st) v (selectedRows st)
    (selectionMode st) (currentPage st) (pageSize st).
Definition setSelectedRows (v : gset string) (st : State) : State :=
  mkState (searchTerm st) (sortColumn st) (sortDirection st) v
    (selectionMode st) (currentPage st) (pageSize st).
Definition setSelectionMode (v : SelectionMode) (st : State) : State :=
  mkState (searchTerm st) (sortColumn st) (sortDirection st)
    (selectedRows st) v (currentPage st) (pageSize st).
Definition setCurrentPage (v : Z) (st : State) : State :=
  mkState (searchTerm st) (sortColumn st) (sortDirection st)
    (selectedRows st) (selectionMode st) v (pageSize st).
Definition setPageSize (v : Z) (st : State) : State :=
  mkState (searchTerm st) (sortColumn st) (sortDirection st)
    (selectedRows st) (selectionMode st) (currentPage st) v.

Section Pipeline.

(** [String.prototype.localeCompare] depends on the locale of the
    browser; it is a parameter of the pipeline. *)
Variable localeCompare : string -> string -> Z.

(** [employees] is the [data] of the query, the rows of the last fetch. *)
Variable employees : list Employee.t.

(** The predicate of [employees.filter]. *)
Definition matches (searchTerm : string) (employee : Employee.t) : bool :=
  includes (toLowerCase (Employee.name employee)) (toLowerCase searchTerm)
  || includes (toLowerCase (Employee.email employee)) (toLowerCase searchTerm)
  || includes (toLowerCase (Employee.department employee))
       (toLowerCase searchTerm)
  || includes (toLowerCase (Employee.role employee)) (toLowerCase searchTerm).

(** The comparator passed to [filtered.sort]; [sortDirection] is [asc]
    or [desc] when it runs. *)
Definition compareFn (sortColumn : Column.t) (sortDirection : SortDirection)
    (a b : Employee.t) : Z :=
  match prop a sortColumn, prop b sortColumn with
  | JsString aValue, JsString bValue =>
      let comparison := localeCompare aValue bValue in
      if decide (sortDirection = asc) then comparison else - comparison
  | JsNumber aValue, JsNumber bValue =>
      let comparison := aValue - bValue in
      if decide (sortDirection = asc) then comparison else - comparison
  | _, _ => 0
  end.

(** The [useMemo] of the filtered and sorted rows.  [sortColumn] is a
    non-empty string, hence truthy; [null] is the only falsy direction. *)
Definition filteredAndSortedEmployees (st : State) : list Employee.t :=
  let filtered := List.filter (matches (searchTerm st)) employees in
  match sortDirection st with
  | null => filtered
  | _ => sort (compareFn (sortColumn st) (sortDirection st)) filtered
  end.

Definition totalPages (st : State) : Z :=
  ceil_div (Z.of_nat (length (filteredAndSortedEmployees st))) (pageSize st).

Definition paginatedEmployees (st : State) : list Employee.t :=
  slice (filteredAndSortedEmployees st)
    ((currentPage st - 1) * pageSize st)
    (currentPage st * pageSize st).

(** *** The handlers

    A handler reads the state of the render it was created in ([st])
    and its [set...] calls are applied in order to give the state of the
    next render. *)

Definition handleSort (column : Column.t) (st : State) : State :=
  if decide (sortColumn st = column) then
    let st1 :=
      setSortDirection
        (if decide (sortDirection st = asc) then desc
         else if decide (sortDirection st = desc) then null
         else asc) st in
    if decide (sortDirection st = desc) then
      setSortDirection null (setSortColumn column st1)
    else st1
  else
    setSortDirection asc (setSortColumn column st).

Definition handleRowSelection (employeeId : string) (checked : bool)
    (st : State) : State :=
  let newSelectedRows := selectedRows st in
  let newSelectedRows :=
    match selectionMode st with
    | single =>
        let cleared : gset string := ∅ in
        if checked then cleared ∪ {[employeeId]} else cleared
    | multiple =>
        if checked then newSelectedRows ∪ {[employeeId]}
        else newSelectedRows ∖ {[employeeId]}
    | none => newSelectedRows
    end in
  setSelectedRows newSelectedRows st.

Definition handleSelectAll (checked : bool) (st : State) : State :=
  match selectionMode st with
  | multiple =>
      let newSelectedRows : gset string := ∅ in
      let newSelectedRows :=
        if checked then
          foldl (fun acc employee => acc ∪ {[Employee.id employee]})
            newSelectedRows (paginatedEmployees st)
        else newSelectedRows in
      setSelectedRows newSelectedRows st
  | _ => st
  end.

(** The selection update of [handleDelete]; the delete request itself
    goes to the server. *)
Definition handleDelete (id : string) (st : State) : State :=
  setSelectedRows (selectedRows st ∖ {[id]}) st.

End Pipeline.

(** An instance of [localeCompare] for the examples: the comparison by
    character codes. *)
Definition ordinalCompare (a b : string) : Z :=
  match String.compare a b with
  | Lt => -1
  | Eq => 0
  | Gt => 1
  end.

(** The ids of the rows shown on the current page. *)
Definition pageIds (localeCompare : string -> string -> Z)
    (employees : list Employee.t) (st : State) : list string :=
  map Employee.id (paginatedEmployees localeCompare employees st).


(** The engine on the rows of the sample store, fetched at time 0. *)
Abbreviation sampleRows := (Storage.sampleEmployees 0).
Abbreviation sampleView := (filteredAndSortedEmployees ordinalCompare sampleRows).
Abbreviation samplePage := (paginatedEmployees ordinalCompare sampleRows).

(** The name of five Greek capital letters nu, iota, kappa, omicron, sigma,
    the search term of the one letter sigma, and a row with that name. *)
Definition name_NIKOS : string :=
  String (ascii_of_nat 205) (String (ascii_of_nat 201)
    (String (ascii_of_nat 202) (String (ascii_of_nat 207)
      (String capital_sigma EmptyString)))).
Definition term_SIGMA : string := String capital_sigma EmptyString.

(** An example state: row "1" is selected, then the search term "marketing"
    leaves row "2" alone on the page. *)
Definition selected_then_searched : State :=
  setSearchTerm "marketing" (handleRowSelection "1" true initial).

(** The rows are in ascending, respectively descending, order of salary. *)
Definition ascending_by_salary (rows : list Employee.t) : Prop :=
  Sorted (fun a b => Employee.salary a <= Employee.salary b) rows.
Definition descending_by_salary (rows : list Employee.t) : Prop :=
  Sorted (fun a b => Employee.salary b <= Employee.salary a) rows.

End DataTable.

(** ** The controls of the table: header checkbox, pagination, events *)

Module Controls.
Import DataTable.

(** The result of [useQuery]: [data] is the rows of the last fetch, the
    empty array while there is none. *)
Record Query : Type := mkQuery {
  data : list Employee.t;
  isLoading : bool;
  error : bool
}.

(** What the component renders: the error card, or the header with one of
    the skeleton, the empty state and the table. *)
Inductive View : Type := ErrorView | LoadingView | EmptyView | DataView.

#[global] Instance View_eq_dec : EqDecision View.
Proof. solve_decision. Defined.

Section Controls.
Variable localeCompare : string -> string -> Z.

Definition view (q : Query) (st : State) : View :=
  if error q then ErrorView
  else if isLoading q then LoadingView
  else if (length (filteredAndSortedEmployees localeCompare (data q) st) =? 0)%nat
       then EmptyView
  else DataView.

(** The footer with the pagination is rendered when
    [!isLoading && filteredAndSortedEmployees.length > 0]. *)
Definition footerShown (q : Query) (st : State) : bool :=
  negb (error q) && negb (isLoading q)
  && (0 <? length (filteredAndSortedEmployees localeCompare (data q) st))%nat.

Variable employees : list Employee.t.

(** [checked] of the header checkbox:
    [paginatedEmployees.length > 0 &&
     paginatedEmployees.every(emp => selectedRows.has(emp.id))] *)
Definition selectAllChecked (st : State) : bool :=
  (0 <? length (paginatedEmployees localeCompare employees st))%nat
  && forallb (fun emp => bool_decide (Employee.id emp ∈ selectedRows st))
       (paginatedEmployees localeCompare employees st).

(** [setCurrentPage(prev => Math.max(prev - 1, 1))] *)
Definition previousPage (st : State) : State :=
  setCurrentPage (Z.max (currentPage st - 1) 1) st.

(** [setCurrentPage(prev => Math.min(prev + 1, totalPages))] *)
Definition nextPage (st : State) : State :=
  setCurrentPage
    (Z.min (currentPage st + 1) (totalPages localeCompare employees st)) st.

(** [disabled] of the two buttons *)
Definition previousDisabled (st : State) : bool :=
  bool_decide (currentPage st = 1).
Definition nextDisabled (st : State) : bool :=
  bool_decide (currentPage st = totalPages localeCompare employees st).

(** The numbered buttons: [[...Array(Math.min(totalPages, 5))]] mapped to
    [index + 1]. *)
Definition pageButtons (st : State) : list Z :=
  seqZ 1 (Z.min (totalPages localeCompare employees st) 5).

(** The button of the last page is rendered when [totalPages > 5]; it does
    [setCurrentPage(totalPages)]. *)
Definition lastPageShown (st : State) : bool :=
  5 <? totalPages localeCompare employees st.
Definition lastPage (st : State) : State :=
  setCurrentPage (totalPages localeCompare employees st) st.

End Controls.

(** The columns with a clickable header, and the values of the page size
    select. *)
Definition sortableColumns : list Column.t :=
  [Column.name; Column.email; Column.department; Column.role; Column.salary].
Definition pageSizes : list Z := [10; 25; 50; 100].

(** What the user can do to the table. *)
Inductive Event : Type :=
| ChangeSearch (term : string)
| ChangeSelectionMode (mode : SelectionMode)
| ClickHeader (column : Column.t)
| ToggleRow (employeeId : string) (checked : bool)
| ToggleAll (checked : bool)
| ClickDelete (employeeId : string)
| ChangePageSize (size : Z)
| ClickPrevious
| ClickNext
| ClickPage (page : Z)
| ClickLastPage.

(** The control of the event is rendered and enabled.  The delete button
    is also disabled while a delete request is pending; the model leaves
    that out, so that it enables more events than the component does. *)
Definition enabled (localeCompare : string -> string -> Z) (q : Query)
    (ev : Event) (st : State) : bool :=
  match ev with
  | ChangeSearch _ | ChangeSelectionMode _ => negb (error q)
  | ClickHeader column =>
      bool_decide (view localeCompare q st = DataView)
      && bool_decide (column ∈ sortableColumns)
  | ToggleRow employeeId _ =>
      bool_decide (view localeCompare q st = DataView)
      && negb (bool_decide (selectionMode st = none))
      && bool_decide (employeeId ∈ pageIds localeCompare (data q) st)
  | ToggleAll _ =>
      bool_decide (view localeCompare q st = DataView)
      && bool_decide (selectionMode st = multiple)
  | ClickDelete employeeId =>
      bool_decide (view localeCompare q st = DataView)
      && bool_decide (employeeId ∈ pageIds localeCompare (data q) st)
  | ChangePageSize size =>
      footerShown localeCompare q st && bool_decide (size ∈ pageSizes)
  | ClickPrevious =>
      footerShown localeCompare q st && negb (previousDisabled st)
  | ClickNext =>
      footerShown localeCompare q st
      && negb (nextDisabled localeCompare (data q) st)
  | ClickPage page =>
      footerShown localeCompare q st
      && bool_decide (page ∈ pageButtons localeCompare (data q) st)
  | ClickLastPage =>
      footerShown localeCompare q st
      && lastPageShown localeCompare (data q) st
  end.

(** The handler of the event. *)
Definition handle (localeCompare : string -> string -> Z) (q : Query)
    (ev : Event) (st : State) : State :=
  match ev with
  | ChangeSearch term => setSearchTerm term st
  | ChangeSelectionMode mode => setSelectionMode mode st
  | ClickHeader column => handleSort column st
  | ToggleRow employeeId checked => handleRowSelection employeeId checked st
  | ToggleAll checked => handleSelectAll localeCompare (data q) checked st
  | ClickDelete employeeId => handleDelete employeeId st
  | ChangePageSize size => setPageSize size st
  | ClickPrevious => previousPage st
  | ClickNext => nextPage localeCompare (data q) st
  | ClickPage page => setCurrentPage page st
  | ClickLastPage => lastPage localeCompare (data q) st
  end.

(** The states of the component: the initial one, and the ones the events
    lead to, whatever the query holds when an event happens. *)
Inductive reachable (localeCompare : string -> string -> Z) : State -> Prop :=
| reachable_initial : reachable localeCompare initial
| reachable_handle q ev st :
    reachable localeCompare st ->
    enabled localeCompare q ev st = true ->
    reachable localeCompare (handle localeCompare q ev st).

(** Example rows: the sample rows, all with the same salary. *)
Definition sampleRowsOnePay : list Employee.t :=
  map (fun employee =>
         Storage.spread_update employee
           (PartialInsertEmployee.mk None None None None (Some 80000) None
              None None))
    sampleRows.

(** The text of a row in a column whose values are strings. *)
Definition text_of (column : Column.t) (employee : Employee.t) : string :=
  match prop employee column with
  | JsString s => s
  | _ => EmptyString
  end.

End Controls.

(** * Properties of the record store *)

Module StorageSpec.
Import Storage.

Lemma MemStorage_eta (s : MemStorage) :
  mkMemStorage (users s) (employees s) = s.
Proof. by destruct s. Qed.

Lemma getEmployee_lookup (id : string) (s : MemStorage) :
  getEmployee id s = (Resolved (employees s !! id), s).
Proof. reflexivity. Qed.

Lemma createEmployee_unfold insertEmployee uuid now (s : MemStorage) :
  createEmployee insertEmployee uuid now s =
  (Resolved (spread_create insertEmployee uuid now),
   mkMemStorage (users s)
     (<[uuid := spread_create insertEmployee uuid now]> (employees s))).
Proof. reflexivity. Qed.

Lemma updateEmployee_present id updateData (s : MemStorage) employee :
  employees s !! id = Some employee ->
  updateEmployee id updateData s =
  (Resolved (Some (spread_update employee updateData)),
   mkMemStorage (users s)
     (<[id := spread_update employee updateData]> (employees s))).
Proof.
  intros Hget. unfold updateEmployee, bind, employees_get. by rewrite Hget.
Qed.

Lemma updateEmployee_absent id updateData (s : MemStorage) :
  employees s !! id = None ->
  updateEmployee id updateData s = (Resolved None, s).
Proof.
  intros Hget. unfold updateEmployee, bind, employees_get. by rewrite Hget.
Qed.




(** C4: [createEmployee] followed by [getEmployee] on the id of the
    returned record yields that record, and the record is the creation
    input extended with the generated id and the creation timestamp taken
    at creation time. *)
Theorem createEmployee_then_getEmployee (s : MemStorage)
    (insertEmployee : InsertEmployee.t) (uuid : string) (now : Z) :
  exists created s',
    createEmployee insertEmployee uuid now s = (Resolved created, s')
    /\ getEmployee (Employee.id created) s' = (Resolved (Some created), s')
    /\ input_fields created = insertEmployee
    /\ Employee.id created = uuid
    /\ Employee.createdAt created = now.
Proof.
  eexists _, _. split; [apply createEmployee_unfold|].
  rewrite getEmployee_lookup. simpl. rewrite lookup_insert_eq.
  repeat split. by destruct insertEmployee.
Qed.

(** C5: for an id that is not in the store, [getEmployee] and
    [updateEmployee] resolve with [undefined] and [deleteEmployee]
    resolves with [false]; no promise is rejected, and the store is left
    as it was. *)
Theorem absent_id_is_a_normal_result (s : MemStorage) (id : string)
    (updateData : PartialInsertEmployee.t) :
  employees s !! id = None ->
  getEmployee id s = (Resolved None, s)
  /\ updateEmployee id updateData s = (Resolved None, s)
  /\ deleteEmployee id s = (Resolved false, s).
Proof.
  intros Hget. split; [|split].
  - rewrite getEmployee_lookup. by rewrite Hget.
  - by apply updateEmployee_absent.
  - unfold deleteEmployee, employees_delete.
    rewrite Hget, delete_id by done. rewrite MemStorage_eta.
    rewrite bool_decide_eq_false_2; [done|]. by intros [? ?].
Qed.

Lemma absent_id_is_a_normal_result_witness :
  getEmployee "42" (new 0) = (Resolved None, new 0)
  /\ updateEmployee "42" PartialInsertEmployee.empty (new 0)
     = (Resolved None, new 0)
  /\ deleteEmployee "42" (new 0) = (Resolved false, new 0).
Proof.
  apply (absent_id_is_a_normal_result (new 0) "42" PartialInsertEmployee.empty).
  vm_compute. reflexivity.
Defined.

End StorageSpec.

(** * Properties of the table view engine *)

Module DataTableSpec.
Import DataTable.

(** ** Strings: [includes] and [toLowerCase] *)









(** Without a capital sigma the context plays no part: [toLowerCase] works
    character by character. *)
Lemma lower_from_without_sigma (before s : string) :
  has_capital_sigma s = false -> lower_from before s = lower_chars s.
Proof.
  revert before. induction s as [|c s IH]; intros before; [done|]. simpl.
  intros [Hc Hs]%orb_false_iff. by rewrite Hc, IH.
Qed.








(** ** Arrays: [sort] and [slice] *)

Section Sort.
Context {A : Type} (compareFn : A -> A -> Z).

Lemma sort_insert_perm (a : A) (l : list A) :
  Permutation (a :: l) (sort_insert compareFn a l).
Proof.
  induction l as [|b l IH]; simpl; [done|].
  destruct (compareFn a b >? 0); [|done].
  rewrite <- IH. apply perm_swap.
Qed.

Lemma sort_perm (l : list A) : Permutation l (sort compareFn l).
Proof.
  induction l as [|a l IH]; simpl; [done|].
  rewrite <- sort_insert_perm. by apply perm_skip.
Qed.

(** The order [R] the comparator stands for: [b] goes before [a] when
    the comparator is positive, [a] stays before [b] otherwise. *)
Variable R : A -> A -> Prop.
Hypothesis compare_pos : forall a b, compareFn a b > 0 -> R b a.
Hypothesis compare_nonpos : forall a b, compareFn a b <= 0 -> R a b.

Lemma sort_insert_HdRel (a b : A) (l : list A) :
  HdRel R b l -> R b a -> HdRel R b (sort_insert compareFn a l).
Proof.
  intros Hhd Hba. destruct l as [|c l]; simpl; [by constructor|].
  destruct (compareFn a c >? 0); constructor; [|done].
  by inversion Hhd.
Qed.

Lemma sort_insert_Sorted (a : A) (l : list A) :
  Sorted R l -> Sorted R (sort_insert compareFn a l).
Proof.
  induction 1 as [|b l Hsorted IH Hhd]; simpl.
  - by repeat constructor.
  - destruct (compareFn a b >? 0) eqn:Hcmp.
    + constructor; [exact IH|].
      apply sort_insert_HdRel; [done|]. apply compare_pos. lia.
    + constructor; [by constructor|].
      constructor. apply compare_nonpos. lia.
Qed.

Lemma sort_Sorted (l : list A) : Sorted R (sort compareFn l).
Proof.
  induction l as [|a l IH]; simpl; [constructor|].
  by apply sort_insert_Sorted.
Qed.
End Sort.

Lemma ceil_div_upper (a b : Z) : 0 < b -> a <= ceil_div a b * b.
Proof.
  intros Hb. unfold ceil_div.
  pose proof (Z.mul_div_le (- a) b Hb). lia.
Qed.

Lemma ceil_div_nonneg (a b : Z) : 0 <= a -> 0 < b -> 0 <= ceil_div a b.
Proof.
  intros Ha Hb. unfold ceil_div.
  assert (- a / b <= 0); [|lia].
  apply Z.div_le_upper_bound; lia.
Qed.

Section Slice.
Context {A : Type}.
Implicit Types l : list A.

(** A page: [pageSize] rows from the offset on, as many as there are. *)
Lemma slice_page l (page pageSize : Z) :
  1 <= page -> 0 < pageSize ->
  slice l ((page - 1) * pageSize) (page * pageSize)
  = take (Z.to_nat pageSize) (drop (Z.to_nat ((page - 1) * pageSize)) l).
Proof.
  intros Hpage Hsize. unfold slice.
  set (len := Z.of_nat (length l)).
  assert (0 <= (page - 1) * pageSize) as Hstart by nia.
  assert (0 <= page * pageSize) as Hend by nia.
  destruct (Z.ltb_spec ((page - 1) * pageSize) 0) as [?|_]; [lia|].
  destruct (Z.ltb_spec (page * pageSize) 0) as [?|_]; [lia|].
  destruct (Z_le_gt_dec len ((page - 1) * pageSize)) as [Hbeyond|Hin].
  - rewrite (drop_ge l (Z.to_nat ((page - 1) * pageSize))) by (subst len; lia).
    rewrite (drop_ge l) by (subst len; lia).
    by rewrite !take_nil.
  - rewrite (Z.min_l ((page - 1) * pageSize)) by lia.
    destruct (Z_le_gt_dec (page * pageSize) len) as [Hfull|Hlast].
    + rewrite Z.min_l by lia. f_equal. lia.
    + rewrite Z.min_r by lia.
      rewrite !take_ge; [done| |]; rewrite length_drop; subst len; lia.
Qed.

Lemma slice_beyond l (start end_ : Z) :
  Z.of_nat (length l) <= start -> slice l start end_ = [].
Proof.
  intros Hbeyond. unfold slice.
  destruct (Z.ltb_spec start 0) as [?|_]; [lia|].
  rewrite (Z.min_r start) by lia. rewrite drop_ge by lia. apply take_nil.
Qed.

Lemma chunks_take l (k n : nat) :
  concat (map (fun i => take k (drop (i * k) l)) (seq 0 n))
  = take (n * k) l.
Proof.
  induction n as [|n IH]; [done|].
  rewrite seq_S, map_app, concat_app, IH. simpl.
  rewrite app_nil_r, take_take_drop. f_equal. lia.
Qed.

Lemma pages_take l (pageSize n : Z) :
  0 < pageSize ->
  concat (map (fun page => slice l ((page - 1) * pageSize) (page * pageSize))
            (seqZ 1 n))
  = take (Z.to_nat n * Z.to_nat pageSize) l.
Proof.
  intros Hsize. rewrite <- chunks_take. unfold seqZ.
  rewrite <- list_fmap_compose. f_equal.
  apply map_ext_in. intros i _. simpl.
  rewrite slice_page by lia. do 2 f_equal. nia.
Qed.
End Slice.

(** ** The pipeline *)

Section Pipeline.
Variable localeCompare : string -> string -> Z.
Variable employees : list Employee.t.

Abbreviation rows := (filteredAndSortedEmployees localeCompare employees).
Abbreviation page := (paginatedEmployees localeCompare employees).

Lemma rows_perm (st : State) :
  Permutation (List.filter (matches (searchTerm st)) employees) (rows st).
Proof.
  unfold filteredAndSortedEmployees.
  destruct (sortDirection st); [apply sort_perm..|done].
Qed.

Lemma rows_In (st : State) (employee : Employee.t) :
  In employee (rows st)
  <-> In employee employees /\ matches (searchTerm st) employee = true.
Proof.
  rewrite <- filter_In. split; apply Permutation_in;
    [symmetry|]; apply rows_perm.
Qed.

Lemma rows_unsorted (st : State) :
  sortDirection st = null ->
  rows st = List.filter (matches (searchTerm st)) employees.
Proof. intros Hdir. unfold filteredAndSortedEmployees. by rewrite Hdir. Qed.

Lemma rows_ascending_by_salary (st : State) :
  sortColumn st = Column.salary -> sortDirection st = asc ->
  ascending_by_salary (rows st).
Proof.
  intros Hcol Hdir. unfold filteredAndSortedEmployees.
  rewrite Hcol, Hdir. apply sort_Sorted; intros a b; unfold compareFn; simpl; lia.
Qed.

Lemma rows_descending_by_salary (st : State) :
  sortColumn st = Column.salary -> sortDirection st = desc ->
  descending_by_salary (rows st).
Proof.
  intros Hcol Hdir. unfold filteredAndSortedEmployees.
  rewrite Hcol, Hdir. apply sort_Sorted; intros a b; unfold compareFn; simpl; lia.
Qed.

(** C6: at a fixed positive page size, the pages 1 to [totalPages] put
    one after the other are the filtered and sorted rows: the same rows
    in the same order, so none is duplicated and none is omitted. *)
Theorem pages_reconstruct_rows (st : State) :
  0 < pageSize st ->
  concat (map (fun n => page (setCurrentPage n st))
            (seqZ 1 (totalPages localeCompare employees st)))
  = rows st.
Proof.
  intros Hsize. unfold paginatedEmployees, totalPages. simpl.
  fold (rows st).
  set (len := Z.of_nat (length (rows st))).
  rewrite (pages_take (rows st)) by done.
  apply take_ge.
  pose proof (ceil_div_upper len (pageSize st) Hsize) as Hup.
  pose proof (ceil_div_nonneg len (pageSize st)) as Hnn.
  rewrite <- Z2Nat.inj_mul by (subst len; lia).
  subst len. lia.
Qed.
(** C7: when the offset of the current page lies at or beyond the end of
    the filtered and sorted rows, the page slice is empty; a change of the
    search term leaves the page index as it was, it is not pulled back into
    range, and the page it then shows is empty when its offset is beyond
    the new rows; with page size 10 and 5 matching rows page 2 is empty. *)
Theorem page_out_of_range_is_empty (st : State) :
  0 < pageSize st ->
  Z.of_nat (length (rows st)) <= (currentPage st - 1) * pageSize st ->
  page st = []
  /\ (forall term,
        currentPage (setSearchTerm term st) = currentPage st
        /\ (Z.of_nat (length (rows (setSearchTerm term st)))
              <= (currentPage st - 1) * pageSize st ->
            page (setSearchTerm term st) = []))
  /\ (pageSize st = 10 -> length (rows st) = 5%nat -> currentPage st = 2 ->
      page st = []).
Proof.
  intros Hsize Hbeyond. split; [by apply slice_beyond|]. split.
  - intros term. split; [done|]. intros Hterm. by apply slice_beyond.
  - intros _ _ _. by apply slice_beyond.
Qed.

Lemma foldl_add_ids (acc : gset string) (l : list Employee.t) :
  foldl (fun acc employee => acc ∪ {[Employee.id employee]}) acc l
  = acc ∪ list_to_set (map Employee.id l).
Proof.
  revert acc. induction l as [|e l IH]; intros acc; simpl.
  - by rewrite union_empty_r_L.
  - by rewrite IH, (assoc_L (∪)).
Qed.

Lemma handleSelectAll_checked (st : State) :
  selectionMode st = multiple ->
  selectedRows (handleSelectAll localeCompare employees true st)
  = list_to_set (pageIds localeCompare employees st).
Proof.
  intros Hmode. unfold handleSelectAll. rewrite Hmode. simpl.
  rewrite foldl_add_ids. unfold pageIds. apply union_empty_l_L.
Qed.

(** C1 (amended): in selection mode 'multiple', 'select all' with checked =
    true replaces the selection set by the ids of the rows on the current
    page: every row on the current page becomes selected, and an id that
    belongs to no row on the current page is not in the selection set
    afterwards, whether it was selected before or not. *)
Theorem handleSelectAll_selects_exactly_the_page (st : State) :
  selectionMode st = multiple ->
  (forall employee, In employee (page st) ->
     Employee.id employee
       ∈ selectedRows (handleSelectAll localeCompare employees true st))
  /\ (forall id, ~ In id (pageIds localeCompare employees st) ->
        id ∉ selectedRows (handleSelectAll localeCompare employees true st)).
Proof.
  intros Hmode. rewrite handleSelectAll_checked by done. split.
  - intros employee Hin. apply elem_of_list_to_set, list_elem_of_In.
    unfold pageIds. by apply in_map.
  - intros id Hnot Hin. apply Hnot.
    apply elem_of_list_to_set in Hin. by apply list_elem_of_In in Hin.
Qed.

(** C10: in selection mode 'none' a row-selection event and a 'select all'
    event leave the selection set as it was, whatever it was. *)
Theorem selection_unchanged_in_mode_none (st : State)
    (employeeId : string) (checked : bool) :
  selectionMode st = none ->
  selectedRows (handleRowSelection employeeId checked st) = selectedRows st
  /\ selectedRows (handleSelectAll localeCompare employees checked st)
     = selectedRows st.
Proof.
  intros Hmode. unfold handleRowSelection, handleSelectAll.
  by rewrite Hmode.
Qed.


(** C2 (amended): the initial state sorts by salary in descending order, so
    from the initial state the first activation of the 'salary' header
    yields the unsorted state, with the rows in the filtered order.  From
    the unsorted state of the salary column, one activation yields the rows
    in ascending order of salary, a second one the rows in descending order
    of salary, and a third one the unsorted state again, with the rows in
    the original filtered order. *)
Theorem handleSort_salary_cycle (st : State) :
  sortColumn st = Column.salary -> sortDirection st = null ->
  let filtered := List.filter (matches (searchTerm st)) employees in
  let st1 := handleSort Column.salary st in
  let st2 := handleSort Column.salary st1 in
  let st3 := handleSort Column.salary st2 in
  (sortDirection st1 = asc
   /\ ascending_by_salary (rows st1) /\ Permutation filtered (rows st1))
  /\ (sortDirection st2 = desc
      /\ descending_by_salary (rows st2) /\ Permutation filtered (rows st2))
  /\ (sortDirection st3 = null /\ rows st3 = filtered)
  /\ (let st0 := handleSort Column.salary initial in
      sortColumn st0 = Column.salary /\ sortDirection st0 = null
      /\ rows st0 = List.filter (matches (searchTerm initial)) employees).
Proof.
  intros Hcol Hdir.
  destruct st as [term col dir sel mode n size]. simpl in Hcol, Hdir.
  subst col dir. cbv zeta.
  split; [|split; [|split]].
  - split; [done|]. split.
    + by apply rows_ascending_by_salary.
    + apply (rows_perm (handleSort Column.salary
                          (mkState term Column.salary null sel mode n size))).
  - split; [done|]. split.
    + by apply rows_descending_by_salary.
    + apply (rows_perm (handleSort Column.salary
               (handleSort Column.salary
                  (mkState term Column.salary null sel mode n size)))).
  - split; [done|]. by apply rows_unsorted.
  - split; [done|]. split; [done|].
    by apply (rows_unsorted (handleSort Column.salary initial)).
Qed.

End Pipeline.

(** C9: in selection mode 'single' a row-selection event leaves at most one
    id in the selection set; checking a row leaves exactly that row
    selected, so selecting row [a] and then row [b] yields the set of [b]
    alone. *)
Theorem single_mode_selects_at_most_one (st : State)
    (employeeId : string) (checked : bool) :
  selectionMode st = single ->
  (size (selectedRows (handleRowSelection employeeId checked st)) <= 1)%nat
  /\ (checked = true ->
      selectedRows (handleRowSelection employeeId checked st) = {[employeeId]})
  /\ (forall a b,
        selectedRows (handleRowSelection b true (handleRowSelection a true st))
        = {[b]}).
Proof.
  intros Hmode. unfold handleRowSelection. rewrite Hmode. simpl.
  rewrite Hmode. split; [|split].
  - destruct checked.
    + rewrite union_empty_l_L, size_singleton. lia.
    + rewrite size_empty. lia.
  - intros ->. apply union_empty_l_L.
  - intros a b. apply union_empty_l_L.
Qed.

(** ** The engine on the sample rows *)

(** The initial view: all five rows, by descending salary. *)
Example initial_view :
  map Employee.id (sampleView initial) = ["1"; "2"; "3"; "5"; "4"].
Proof. vm_compute. reflexivity. Qed.

(** The search term is case-folded: "ENGINEERING" finds the one row of the
    Engineering department. *)
Example search_engineering :
  map Employee.id (sampleView (setSearchTerm "ENGINEERING" initial)) = ["1"].
Proof. vm_compute. reflexivity. Qed.

(** Pages of two rows. *)
Example pages_of_two :
  map (fun n => map Employee.id
                  (samplePage (setCurrentPage n (setPageSize 2 initial))))
      (seqZ 1 (totalPages ordinalCompare sampleRows (setPageSize 2 initial)))
  = [["1"; "2"]; ["3"; "5"]; ["4"]].
Proof. vm_compute. reflexivity. Qed.

Lemma pages_reconstruct_rows_witness :
  concat (map (fun n => samplePage (setCurrentPage n initial))
            (seqZ 1 (totalPages ordinalCompare sampleRows initial)))
  = sampleView initial.
Proof.
  apply (pages_reconstruct_rows ordinalCompare sampleRows initial).
  reflexivity.
Defined.

Lemma page_out_of_range_is_empty_witness :
  samplePage (setCurrentPage 2 initial) = [].
Proof.
  refine (proj1 (page_out_of_range_is_empty ordinalCompare sampleRows
                   (setCurrentPage 2 initial) _ _)).
  - reflexivity.
  - vm_compute. discriminate.
Defined.


(** In final position the capital sigma goes to the final sigma, alone it
    goes to the small sigma. *)
Example toLowerCase_NIKOS :
  toLowerCase name_NIKOS
  = String (ascii_of_nat 237) (String (ascii_of_nat 233)
      (String (ascii_of_nat 234) (String (ascii_of_nat 239)
        (String final_sigma EmptyString)))).
Proof. reflexivity. Qed.

Example toLowerCase_SIGMA :
  toLowerCase term_SIGMA = String small_sigma EmptyString.
Proof. reflexivity. Qed.


Lemma single_mode_selects_at_most_one_witness :
  selectedRows
    (handleRowSelection "2" true
       (handleRowSelection "1" true (setSelectionMode single initial)))
  = {["2"]}.
Proof.
  refine (proj2 (proj2 (single_mode_selects_at_most_one
                          (setSelectionMode single initial) "1" true _))
            "1" "2").
  reflexivity.
Defined.

Lemma selection_unchanged_in_mode_none_witness :
  selectedRows
    (handleRowSelection "2" true
       (setSelectionMode none (handleRowSelection "1" true initial)))
  = selectedRows (setSelectionMode none (handleRowSelection "1" true initial))
  /\ selectedRows
       (handleSelectAll ordinalCompare sampleRows true
          (setSelectionMode none (handleRowSelection "1" true initial)))
     = selectedRows (setSelectionMode none (handleRowSelection "1" true initial)).
Proof.
  apply (selection_unchanged_in_mode_none ordinalCompare sampleRows
           (setSelectionMode none (handleRowSelection "1" true initial))
           "2" true).
  reflexivity.
Defined.

Lemma selected_then_searched_page :
  pageIds ordinalCompare sampleRows selected_then_searched = ["2"].
Proof. vm_compute. reflexivity. Qed.

Lemma handleSelectAll_selects_exactly_the_page_witness :
  Forall (fun employee =>
            Employee.id employee
              ∈ selectedRows
                  (handleSelectAll ordinalCompare sampleRows true
                     selected_then_searched))
    (samplePage selected_then_searched)
  /\ "5" ∉ selectedRows
             (handleSelectAll ordinalCompare sampleRows true
                selected_then_searched).
Proof.
  destruct (handleSelectAll_selects_exactly_the_page ordinalCompare sampleRows
              selected_then_searched) as [Hpage Hrest].
  - reflexivity.
  - split.
    + apply Forall_forall. intros employee Hin.
      apply Hpage. by apply list_elem_of_In.
    + apply Hrest. rewrite selected_then_searched_page.
      intros [Heq|[]]. discriminate.
Defined.

(** C1, as stated, fails: row "1" is selected and is not on the current
    page, and 'select all' with checked = true removes it from the
    selection set. *)
Lemma handleSelectAll_drops_selection_off_the_page :
  selectionMode selected_then_searched = multiple
  /\ "1" ∈ selectedRows selected_then_searched
  /\ ~ In "1" (pageIds ordinalCompare sampleRows selected_then_searched)
  /\ "1" ∉ selectedRows
             (handleSelectAll ordinalCompare sampleRows true
                selected_then_searched).
Proof.
  split; [reflexivity|]. split; [|split].
  - apply elem_of_union_r, elem_of_singleton. reflexivity.
  - rewrite selected_then_searched_page. intros [Heq|[]]. discriminate.
  - rewrite handleSelectAll_checked by reflexivity.
    rewrite selected_then_searched_page, elem_of_list_to_set.
    intros Hin. apply list_elem_of_In in Hin as [Heq|[]]. discriminate.
Qed.

Lemma handleSort_salary_cycle_witness :
  sortDirection (handleSort Column.salary (handleSort Column.salary initial))
  = asc
  /\ ascending_by_salary
       (sampleView (handleSort Column.salary (handleSort Column.salary initial)))
  /\ Permutation sampleRows
       (sampleView (handleSort Column.salary (handleSort Column.salary initial))).
Proof.
  destruct (handleSort_salary_cycle ordinalCompare sampleRows
              (handleSort Column.salary initial)) as [Hasc _].
  - reflexivity.
  - reflexivity.
  - exact Hasc.
Defined.

(** C2, as stated, fails: from the initial state the first activation of
    the 'salary' header yields the unsorted state, and the sample rows are
    then not in ascending order of salary; the second activation yields
    ascending and the third descending. *)
Lemma handleSort_from_initial_is_unsorted_first :
  sortDirection (handleSort Column.salary initial) = null
  /\ ~ ascending_by_salary (sampleView (handleSort Column.salary initial))
  /\ sortDirection (handleSort Column.salary (handleSort Column.salary initial))
     = asc
  /\ sortDirection
       (handleSort Column.salary
          (handleSort Column.salary (handleSort Column.salary initial)))
     = desc.
Proof.
  split; [reflexivity|]. split; [|split; reflexivity].
  assert (sampleView (handleSort Column.salary initial) = sampleRows) as ->
    by (vm_compute; reflexivity).
  unfold ascending_by_salary, Storage.sampleEmployees.
  intros Hsorted. inversion Hsorted as [|? ? _ Hhd]. subst.
  inversion Hhd as [|? ? Hle]. subst. simpl in Hle. lia.
Qed.

End DataTableSpec.

(** * Properties of the ordered maps and of the store with its order *)

Module JsMapFacts.

Section JsMapFacts.
Context {V : Type}.
Implicit Types (m : JsMap.t V) (k : string) (v : V).

Lemma get_to_gmap m k : JsMap.to_gmap m !! k = JsMap.get k m.
Proof.
  induction m as [|[k' v'] m IH]; simpl; [done|].
  unfold JsMap.to_gmap in *. simpl. destruct (decide (k = k')) as [->|Hne].
  - by rewrite lookup_insert_eq.
  - by rewrite lookup_insert_ne.
Qed.

Lemma to_gmap_set m k v :
  JsMap.to_gmap (JsMap.set k v m) = <[k := v]> (JsMap.to_gmap m).
Proof.
  induction m as [|[k' v'] m IH]; simpl; [done|].
  unfold JsMap.to_gmap in *. destruct (decide (k = k')) as [->|Hne]; simpl.
  - by rewrite insert_insert_eq.
  - rewrite IH. by apply insert_insert_ne.
Qed.

Lemma to_gmap_delete m k :
  JsMap.to_gmap (JsMap.delete k m) = delete k (JsMap.to_gmap m).
Proof.
  induction m as [|[k' v'] m IH]; simpl.
  - unfold JsMap.to_gmap. simpl. by rewrite delete_empty.
  - unfold JsMap.to_gmap, JsMap.delete in *. simpl.
    destruct (decide (k' = k)) as [->|Hne].
    + rewrite bool_decide_eq_true_2 by done. simpl.
      rewrite IH. by rewrite delete_insert_eq.
    + rewrite bool_decide_eq_false_2 by done. simpl.
      rewrite IH. by rewrite delete_insert_ne.
Qed.

Lemma get_None m k : JsMap.get k m = None <-> k ∉ JsMap.keys m.
Proof.
  induction m as [|[k' v'] m IH]; simpl.
  - split; [intros _; apply not_elem_of_nil | done].
  - rewrite not_elem_of_cons. destruct (decide (k = k')) as [->|Hne].
    + split; [done|]. by intros [? _].
    + rewrite IH. tauto.
Qed.

Lemma has_false m k : JsMap.has k m = false <-> JsMap.get k m = None.
Proof.
  unfold JsMap.has. rewrite bool_decide_eq_false.
  destruct (JsMap.get k m); split; try done.
  intros H. destruct H. by eexists.
Qed.

Lemma set_absent m k v :
  JsMap.get k m = None -> JsMap.set k v m = m ++ [(k, v)].
Proof.
  induction m as [|[k' v'] m IH]; simpl; [done|].
  destruct (decide (k = k')); [done|]. intros Hget. by rewrite IH.
Qed.

Lemma keys_set_present m k v :
  is_Some (JsMap.get k m) -> JsMap.keys (JsMap.set k v m) = JsMap.keys m.
Proof.
  induction m as [|[k' v'] m IH]; simpl.
  - by intros [? ?].
  - destruct (decide (k = k')) as [->|Hne]; simpl; [done|].
    intros Hget. by rewrite IH.
Qed.

Lemma get_set m k k' v :
  JsMap.get k' (JsMap.set k v m)
  = if decide (k' = k) then Some v else JsMap.get k' m.
Proof.
  rewrite <- !get_to_gmap, to_gmap_set.
  destruct (decide (k' = k)) as [->|Hne].
  - apply lookup_insert_eq.
  - by apply lookup_insert_ne.
Qed.

Lemma get_delete m k k' :
  JsMap.get k' (JsMap.delete k m)
  = if decide (k' = k) then None else JsMap.get k' m.
Proof.
  rewrite <- !get_to_gmap, to_gmap_delete.
  destruct (decide (k' = k)) as [->|Hne].
  - apply lookup_delete_eq.
  - by apply lookup_delete_ne.
Qed.

Lemma NoDup_keys_set m k v :
  NoDup (JsMap.keys m) -> NoDup (JsMap.keys (JsMap.set k v m)).
Proof.
  intros Hnd. destruct (JsMap.get k m) as [old|] eqn:Hget.
  - by rewrite keys_set_present by (by rewrite Hget).
  - rewrite set_absent by done. unfold JsMap.keys. rewrite map_app. simpl.
    apply NoDup_app. split; [done|]. split; [|apply NoDup_singleton].
    intros k' Hin Hk. apply list_elem_of_singleton in Hk as ->.
    by apply get_None in Hget.
Qed.

Lemma delete_absent m k : JsMap.get k m = None -> JsMap.delete k m = m.
Proof.
  induction m as [|[k' v'] m IH]; [done|]. unfold JsMap.delete in *. simpl.
  destruct (decide (k = k')) as [->|Hne]; [done|].
  intros Hget. rewrite bool_decide_eq_false_2 by done. simpl. by rewrite IH.
Qed.

Lemma delete_snoc m k v :
  JsMap.get k m = None -> JsMap.delete k (m ++ [(k, v)]) = m.
Proof.
  intros Hget. unfold JsMap.delete. rewrite List.filter_app. simpl.
  rewrite bool_decide_eq_true_2 by done. simpl. rewrite app_nil_r.
  by apply delete_absent.
Qed.



Lemma Forall_set (P : string * V -> Prop) m k v :
  P (k, v) -> Forall P m -> Forall P (JsMap.set k v m).
Proof.
  intros Hnew. induction 1 as [|[k' v'] m Hhd Htl IH]; simpl.
  - by repeat constructor.
  - destruct (decide (k = k')); constructor; done.
Qed.


(** In a map whose entries are stored under a key computed from the value,
    [set] replaces the value in place and [delete] filters it out. *)
Lemma values_set_other (key : V -> string) m k v :
  Forall (fun entry => key (snd entry) = fst entry) m ->
  k ∉ JsMap.keys m ->
  map (fun v' => if decide (key v' = k) then v else v') (JsMap.values m)
  = JsMap.values m.
Proof.
  induction 1 as [|[k' v'] m Hhd Htl IH]; simpl; [done|].
  simpl in Hhd. rewrite not_elem_of_cons. intros [Hne Hnotin].
  rewrite decide_False by congruence. f_equal. by apply IH.
Qed.

Lemma values_set_present (key : V -> string) m k v :
  NoDup (JsMap.keys m) ->
  Forall (fun entry => key (snd entry) = fst entry) m ->
  is_Some (JsMap.get k m) ->
  JsMap.values (JsMap.set k v m)
  = map (fun v' => if decide (key v' = k) then v else v') (JsMap.values m).
Proof.
  intros Hnd Hkey. induction Hkey as [|[k' v'] m Hhd Htl IH]; simpl.
  - by intros [? ?].
  - simpl in Hhd. simpl in Hnd. apply NoDup_cons in Hnd as [Hnotin Hnd].
    destruct (decide (k = k')) as [->|Hne]; simpl; intros Hsome.
    + rewrite decide_True by done. f_equal.
      symmetry. by apply values_set_other.
    + rewrite decide_False by congruence. f_equal. by apply IH.
Qed.

Lemma values_delete (key : V -> string) m k :
  Forall (fun entry => key (snd entry) = fst entry) m ->
  JsMap.values (JsMap.delete k m)
  = List.filter (fun v' => negb (bool_decide (key v' = k))) (JsMap.values m).
Proof.
  unfold JsMap.delete.
  induction 1 as [|[k' v'] m Hhd Htl IH]; simpl; [done|].
  simpl in Hhd. rewrite Hhd.
  destruct (bool_decide (k' = k)); simpl; by rewrite IH.
Qed.

End JsMapFacts.
End JsMapFacts.

Module OrderedStorageSpec.
Import Storage OrderedStorage.

Lemma get_Some_In {V} (m : JsMap.t V) k v :
  JsMap.get k m = Some v -> In (k, v) m.
Proof.
  induction m as [|[k' v'] m IH]; simpl; [done|].
  destruct (decide (k = k')) as [->|Hne].
  - intros [= ->]. by left.
  - intros Hget. right. by apply IH.
Qed.



Lemma employees_ok_set (m : JsMap.t Employee.t) employee :
  employees_ok m -> employees_ok (JsMap.set (Employee.id employee) employee m).
Proof.
  intros [Hnd Hkey]. split.
  - by apply JsMapFacts.NoDup_keys_set.
  - by apply JsMapFacts.Forall_set.
Qed.


Lemma employees_ok_foldl (l : list Employee.t) (m : JsMap.t Employee.t) :
  employees_ok m ->
  employees_ok
    (foldl (fun m employee => JsMap.set (Employee.id employee) employee m) m l).
Proof.
  revert m. induction l as [|e l IH]; intros m Hok; simpl; [done|].
  by apply IH, employees_ok_set.
Qed.

Lemma ok_new (t0 : Z) : ok (new t0).
Proof.
  split.
  - split; [apply NoDup_nil_2 | constructor].
  - apply employees_ok_foldl. split; [apply NoDup_nil_2 | constructor].
Qed.

Lemma find_split {A} (f : A -> bool) (l : list A) (x : A) :
  List.find f l = Some x ->
  exists before after,
    l = before ++ x :: after /\ f x = true
    /\ Forall (fun y => f y = false) before.
Proof.
  induction l as [|y l IH]; simpl; [done|].
  destruct (f y) eqn:Hy.
  - intros [= ->]. by exists [], l.
  - intros Hfind. destruct (IH Hfind) as (before & after & -> & Hx & Hbefore).
    exists (y :: before), after. repeat split; [done|]. by constructor.
Qed.

Lemma find_None_Forall {A} (f : A -> bool) (l : list A) :
  List.find f l = None -> Forall (fun y => f y = false) l.
Proof.
  induction l as [|y l IH]; simpl; [constructor|].
  destruct (f y) eqn:Hy; [done|]. intros Hfind. constructor; auto.
Qed.

Lemma find_snoc {A} (f : A -> bool) (l : list A) (x : A) :
  List.find f (l ++ [x])
  = match List.find f l with
    | Some y => Some y
    | None => if f x then Some x else None
    end.
Proof.
  induction l as [|y l IH]; simpl; [done|]. by destruct (f y).
Qed.

Lemma to_gmap_foldl_set (l : list Employee.t) (m : JsMap.t Employee.t) :
  JsMap.to_gmap
    (foldl (fun m employee => JsMap.set (Employee.id employee) employee m) m l)
  = foldl (fun m employee => <[Employee.id employee := employee]> m)
      (JsMap.to_gmap m) l.
Proof.
  revert m. induction l as [|e l IH]; intros m; simpl; [done|].
  by rewrite IH, JsMapFacts.to_gmap_set.
Qed.

(** The constructor fills the map in the order of the sample rows. *)
Example getEmployees_new :
  fst (getEmployees (new 0)) = Resolved (sampleEmployees 0).
Proof. reflexivity. Qed.

(** X1: the insertion order of the maps is invisible to the methods that
    get, set and delete by key: the constructor builds the store that the
    unordered constructor builds, and on the ordered store each of
    [getUser], [createUser], [getEmployee], [createEmployee],
    [updateEmployee] and [deleteEmployee] returns what the method of the
    unordered store returns, and leaves the store that the unordered method
    leaves. *)
Theorem ordered_store_simulates :
  (forall t0, abs (new t0) = Storage.new t0)
  /\ (forall id, simulates (getUser id) (Storage.getUser id))
  /\ (forall insertUser uuid,
        simulates (createUser insertUser uuid)
          (Storage.createUser insertUser uuid))
  /\ (forall id, simulates (getEmployee id) (Storage.getEmployee id))
  /\ (forall insertEmployee uuid now,
        simulates (createEmployee insertEmployee uuid now)
          (Storage.createEmployee insertEmployee uuid now))
  /\ (forall id updateData,
        simulates (updateEmployee id updateData)
          (Storage.updateEmployee id updateData))
  /\ (forall id, simulates (deleteEmployee id) (Storage.deleteEmployee id)).
Proof.
  split.
  { intros t0. unfold abs, Storage.new. f_equal.
    all: exact (to_gmap_foldl_set (sampleEmployees t0) JsMap.empty). }
  repeat split; simpl.
  - by rewrite JsMapFacts.get_to_gmap.
  - unfold abs. simpl. by rewrite JsMapFacts.to_gmap_set.
  - by rewrite JsMapFacts.get_to_gmap.
  - unfold abs. simpl. by rewrite JsMapFacts.to_gmap_set.
  - unfold updateEmployee, Storage.updateEmployee, Storage.bind,
      Storage.employees_get. simpl. rewrite JsMapFacts.get_to_gmap.
    by destruct (JsMap.get id (employees s)).
  - unfold updateEmployee, Storage.updateEmployee, Storage.bind,
      Storage.employees_get. simpl. rewrite JsMapFacts.get_to_gmap.
    destruct (JsMap.get id (employees s)); simpl; [|done].
    unfold abs. simpl. by rewrite JsMapFacts.to_gmap_set.
  - unfold JsMap.has. by rewrite JsMapFacts.get_to_gmap.
  - unfold abs. simpl. by rewrite JsMapFacts.to_gmap_delete.
Qed.



(** X3: [createEmployee] with an id that is not in the store appends the
    record: [getEmployees] returns the rows from before followed by the new
    record, the record of every other id is the one from before, and
    deleting the new id again gives back the store from before. *)
Theorem createEmployee_appends (s : MemStorage)
    (insertEmployee : InsertEmployee.t) (uuid : string) (now : Z) :
  JsMap.get uuid (employees s) = None ->
  let created := spread_create insertEmployee uuid now in
  let s' := snd (createEmployee insertEmployee uuid now s) in
  (forall rows, fst (getEmployees s) = Resolved rows ->
     fst (getEmployees s') = Resolved (rows ++ [created]))
  /\ (forall id, id <> uuid ->
        fst (getEmployee id s') = fst (getEmployee id s))
  /\ deleteEmployee uuid s' = (Resolved true, s).
Proof.
  intros Hfresh created s'. subst created s'. simpl.
  rewrite JsMapFacts.set_absent by done. split; [|split].
  - intros rows [= <-]. unfold JsMap.values. by rewrite map_app.
  - intros id Hne. f_equal.
    rewrite <- JsMapFacts.set_absent with (v := spread_create insertEmployee uuid now)
      by done.
    rewrite JsMapFacts.get_set. by rewrite decide_False.
  - unfold deleteEmployee. simpl.
    rewrite JsMapFacts.delete_snoc by done. f_equal.
    + f_equal. unfold JsMap.has. apply bool_decide_eq_true_2.
      rewrite <- JsMapFacts.set_absent
        with (v := spread_create insertEmployee uuid now) by done.
      rewrite JsMapFacts.get_set, decide_True by done. by eexists.
    + by destruct s.
Qed.

Lemma createEmployee_appends_witness :
  deleteEmployee "6"
    (snd (createEmployee
            (InsertEmployee.mk "Ada Lovelace" "ada@company.com" "Engineering"
               "Analyst" 90000 "active" None "EMP006") "6" 1 (new 0)))
  = (Resolved true, new 0).
Proof.
  refine (proj2 (proj2 (createEmployee_appends (new 0)
                          (InsertEmployee.mk "Ada Lovelace" "ada@company.com"
                             "Engineering" "Analyst" 90000 "active" None
                             "EMP006") "6" 1 _))).
  reflexivity.
Defined.

(** X4: [createEmployee] does not look for the id in the store: when the id
    is there already, the new record takes the place of the old one, at the
    same position, and the number of rows stays the same. *)
Theorem createEmployee_existing_id_replaces (s : MemStorage)
    (insertEmployee : InsertEmployee.t) (uuid : string) (now : Z)
    (old : Employee.t) :
  ok s ->
  JsMap.get uuid (employees s) = Some old ->
  let created := spread_create insertEmployee uuid now in
  let s' := snd (createEmployee insertEmployee uuid now s) in
  fst (createEmployee insertEmployee uuid now s) = Resolved created
  /\ fst (getEmployee uuid s') = Resolved (Some created)
  /\ (forall rows, fst (getEmployees s) = Resolved rows ->
        fst (getEmployees s')
        = Resolved (map (fun employee =>
                           if decide (Employee.id employee = uuid)
                           then created else employee) rows)
        /\ In old rows).
Proof.
  intros [_ [Hnd Hkey]] Hget created s'. subst created s'. simpl.
  split; [done|]. split.
  - by rewrite JsMapFacts.get_set, decide_True.
  - intros rows [= <-]. split.
    + f_equal. apply JsMapFacts.values_set_present; [done..|].
      by rewrite Hget.
    + apply get_Some_In in Hget. unfold JsMap.values.
      by apply (in_map snd) in Hget.
Qed.

Lemma createEmployee_existing_id_replaces_witness :
  fst (getEmployee "2"
         (snd (createEmployee
                 (InsertEmployee.mk "Ada Lovelace" "ada@company.com"
                    "Engineering" "Analyst" 90000 "active" None "EMP006")
                 "2" 1 (new 0))))
  = Resolved
      (Some (Employee.mk "2" "Ada Lovelace" "ada@company.com" "Engineering"
               "Analyst" 90000 "active" None "EMP006" 1)).
Proof.
  refine (proj1 (proj2 (createEmployee_existing_id_replaces (new 0)
                          (InsertEmployee.mk "Ada Lovelace" "ada@company.com"
                             "Engineering" "Analyst" 90000 "active" None
                             "EMP006") "2" 1
                          (Employee.mk "2" "Michael Chen" "michael.chen@company.com"
                             "Marketing" "Marketing Manager" 85000 "active"
                             (Some "https://images.unsplash.com/photo-1472099645785-5658abf4ff4e?ixlib=rb-4.0.3&ixid=MnwxMjA3fDB8MHxwaG90by1wYWdlfHx8fGVufDB8fHx8&auto=format&fit=crop&w=200&h=200")
                             "EMP002" 0)
                          (ok_new 0) _))).
  reflexivity.
Defined.



(** X6: [deleteEmployee] on an id of the store resolves with [true] and
    removes that record and no other: [getEmployee] of the id then gives
    [undefined], every other id gives its record, [getEmployees] returns the
    rows from before without the record, and a second [deleteEmployee] of
    the id resolves with [false] and changes nothing. *)
Theorem deleteEmployee_removes_the_record (s : MemStorage) (id : string)
    (employee : Employee.t) :
  ok s ->
  JsMap.get id (employees s) = Some employee ->
  let s' := snd (deleteEmployee id s) in
  fst (deleteEmployee id s) = Resolved true
  /\ fst (getEmployee id s') = Resolved None
  /\ (forall other, other <> id ->
        fst (getEmployee other s') = fst (getEmployee other s))
  /\ (forall rows, fst (getEmployees s) = Resolved rows ->
        fst (getEmployees s')
        = Resolved (List.filter
                      (fun row => negb (bool_decide (Employee.id row = id)))
                      rows))
  /\ deleteEmployee id s' = (Resolved false, s').
Proof.
  intros [_ [Hnd Hkey]] Hget s'. subst s'. simpl.
  split; [|split; [|split; [|split]]].
  - f_equal. unfold JsMap.has. apply bool_decide_eq_true_2. by rewrite Hget.
  - by rewrite JsMapFacts.get_delete, decide_True.
  - intros other Hne. by rewrite JsMapFacts.get_delete, decide_False.
  - intros rows [= <-]. f_equal. by apply JsMapFacts.values_delete.
  - unfold deleteEmployee. simpl.
    assert (JsMap.get id (JsMap.delete id (employees s)) = None) as Hgone
      by (by rewrite JsMapFacts.get_delete, decide_True).
    rewrite (JsMapFacts.delete_absent _ _ Hgone). f_equal.
    f_equal. by apply JsMapFacts.has_false.
Qed.

Lemma deleteEmployee_removes_the_record_witness :
  fst (deleteEmployee "4" (new 0)) = Resolved true
  /\ fst (getEmployee "4" (snd (deleteEmployee "4" (new 0)))) = Resolved None.
Proof.
  destruct (deleteEmployee_removes_the_record (new 0) "4"
              (Employee.mk "4" "David Rodriguez" "david.rodriguez@company.com"
                 "Sales" "Sales Representative" 65000 "active"
                 (Some "https://images.unsplash.com/photo-1507003211169-0a1dd7228f2d?ixlib=rb-4.0.3&ixid=MnwxMjA3fDB8MHxwaG90by1wYWdlfHx8fGVufDB8fHx8&auto=format&fit=crop&w=200&h=200")
                 "EMP004" 0) (ok_new 0)) as (Htrue & Hgone & _).
  - reflexivity.
  - by split.
Defined.

(** X7: [getUserByUsername] resolves with the oldest user of that username:
    no user created before it has the username; it resolves with
    [undefined] exactly when no user of the store has the username; in both
    cases the store is left as it was. *)
Theorem getUserByUsername_first_match (s : MemStorage) (username : string) :
  match fst (getUserByUsername username s) with
  | Resolved (Some user) =>
      exists before after,
        JsMap.values (users s) = before ++ user :: after
        /\ User.username user = username
        /\ Forall (fun other => User.username other <> username) before
  | Resolved None =>
      Forall (fun other => User.username other <> username)
        (JsMap.values (users s))
  | Rejected _ => False
  end
  /\ snd (getUserByUsername username s) = s.
Proof.
  split; [|done]. simpl.
  destruct (List.find _ (JsMap.values (users s))) as [user|] eqn:Hfind.
  - apply find_split in Hfind as (before & after & Hsplit & Hname & Hbefore).
    exists before, after. split; [done|]. split.
    + by apply bool_decide_eq_true in Hname.
    + eapply Forall_impl; [exact Hbefore|]. simpl.
      intros other Hother. by apply bool_decide_eq_false in Hother.
  - apply find_None_Forall in Hfind.
    eapply Forall_impl; [exact Hfind|]. simpl.
    intros other Hother. by apply bool_decide_eq_false in Hother.
Qed.

(** X8: [createUser] with an id that is not in the store, followed by
    [getUser] on that id, gives the created user: the input with the id.
    It does not look for the username: [getUserByUsername] afterwards still
    gives the older user when one had the username, and the created user
    only when none had. *)
Theorem createUser_then_lookup (s : MemStorage) (insertUser : InsertUser.t)
    (uuid : string) :
  JsMap.get uuid (users s) = None ->
  let created := spread_user insertUser uuid in
  let s' := snd (createUser insertUser uuid s) in
  fst (createUser insertUser uuid s) = Resolved created
  /\ User.username created = InsertUser.username insertUser
  /\ User.password created = InsertUser.password insertUser
  /\ fst (getUser uuid s') = Resolved (Some created)
  /\ (forall username,
        fst (getUserByUsername username s')
        = match fst (getUserByUsername username s) with
          | Resolved (Some older) => Resolved (Some older)
          | _ => if decide (InsertUser.username insertUser = username)
                 then Resolved (Some created) else Resolved None
          end)
  /\ employees s' = employees s.
Proof.
  intros Hfresh created s'. subst created s'. simpl.
  split; [done|]. split; [done|]. split; [done|]. split; [|split; [|done]].
  - by rewrite JsMapFacts.get_set, decide_True.
  - intros username. rewrite JsMapFacts.set_absent by done.
    unfold JsMap.values. rewrite map_app. simpl. rewrite find_snoc.
    destruct (List.find _ (map snd (users s))); [done|]. simpl.
    by destruct (decide (InsertUser.username insertUser = username));
      [rewrite bool_decide_eq_true_2 | rewrite bool_decide_eq_false_2].
Qed.

Lemma createUser_then_lookup_witness :
  fst (getUserByUsername "ann"
         (snd (createUser (InsertUser.mk "ann" "second") "u-2"
                 (snd (createUser (InsertUser.mk "ann" "first") "u-1"
                         (new 0))))))
  = Resolved (Some (User.mk "u-1" "ann" "first")).
Proof.
  destruct (createUser_then_lookup
              (snd (createUser (InsertUser.mk "ann" "first") "u-1" (new 0)))
              (InsertUser.mk "ann" "second") "u-2")
    as (_ & _ & _ & _ & Hname & _).
  - reflexivity.
  - exact (Hname "ann").
Defined.

Lemma spread_update_twice (employee : Employee.t)
    (first second : PartialInsertEmployee.t) :
  spread_update (spread_update employee first) second
  = spread_update employee (spread_partial first second).
Proof.
  destruct first as [n1 e1 d1 r1 s1 st1 a1 i1],
           second as [n2 e2 d2 r2 s2 st2 a2 i2].
  unfold spread_update, spread_partial. simpl.
  by destruct n2, e2, d2, r2, s2, st2, a2, i2.
Qed.

(** X9: two updates of a record one after the other are one update with the
    two partial inputs spread into one, the second over the first: the
    result and the store are the same.  In particular the same update made
    twice is the update made once. *)
Theorem updateEmployee_twice (s : Storage.MemStorage) (id : string)
    (employee : Employee.t) (first second : PartialInsertEmployee.t) :
  Storage.employees s !! id = Some employee ->
  Storage.updateEmployee id second (snd (Storage.updateEmployee id first s))
  = Storage.updateEmployee id (spread_partial first second) s
  /\ Storage.updateEmployee id first (snd (Storage.updateEmployee id first s))
     = Storage.updateEmployee id first s.
Proof.
  intros Hget.
  assert (forall u v,
            Storage.updateEmployee id v (snd (Storage.updateEmployee id u s))
            = Storage.updateEmployee id (spread_partial u v) s) as Htwice.
  { intros u v.
    rewrite (StorageSpec.updateEmployee_present id u s employee Hget). simpl.
    rewrite (StorageSpec.updateEmployee_present id (spread_partial u v) s
               employee Hget).
    erewrite StorageSpec.updateEmployee_present
      by (simpl; apply lookup_insert_eq).
    simpl. by rewrite insert_insert_eq, spread_update_twice. }
  split; [apply Htwice|]. rewrite Htwice. f_equal.
  destruct first as [n e d r sa st a i]. unfold spread_partial. simpl.
  by destruct n, e, d, r, sa, st, a, i.
Qed.

Lemma updateEmployee_twice_witness :
  Storage.updateEmployee "5"
    (PartialInsertEmployee.mk None None None None (Some 75000) None None None)
    (snd (Storage.updateEmployee "5"
            (PartialInsertEmployee.mk None None (Some "People") None
               (Some 74000) None None None) (Storage.new 0)))
  = Storage.updateEmployee "5"
      (spread_partial
         (PartialInsertEmployee.mk None None (Some "People") None
            (Some 74000) None None None)
         (PartialInsertEmployee.mk None None None None (Some 75000) None None
            None))
      (Storage.new 0).
Proof.
  refine (proj1 (updateEmployee_twice (Storage.new 0) "5"
                   (Employee.mk "5" "Lisa Thompson" "lisa.thompson@company.com"
                      "HR" "HR Manager" 72000 "inactive"
                      (Some "https://images.unsplash.com/photo-1487412720507-e7ab37603c6f?ixlib=rb-4.0.3&ixid=MnwxMjA3fDB8MHxwaG90by1wYWdlfHx8fGVufDB8fHx8&auto=format&fit=crop&w=200&h=200")
                      "EMP005" 0) _ _ _)).
  vm_compute. reflexivity.
Defined.

End OrderedStorageSpec.

(** * More properties of the table view engine *)

Module DataTableExtra.
Import DataTable Controls.

(** ** Sorting *)

Section Stable.
Context {A : Type} (compareFn : A -> A -> Z) (P : A -> bool).

(** The rows picked by [P] compare as equal, or in their order. *)
Hypothesis ties : forall a b, P a = true -> P b = true -> compareFn a b <= 0.

Lemma filter_sort_insert (a : A) (l : list A) :
  List.filter P (sort_insert compareFn a l) = List.filter P (a :: l).
Proof.
  induction l as [|b l IH]; [done|]. simpl in *.
  destruct (compareFn a b >? 0) eqn:Hcmp; [|done]. simpl. rewrite IH.
  destruct (P a) eqn:Ha; [|done]. destruct (P b) eqn:Hb; [|done].
  pose proof (ties a b Ha Hb). lia.
Qed.

Lemma filter_sort (l : list A) :
  List.filter P (sort compareFn l) = List.filter P l.
Proof.
  induction l as [|a l IH]; [done|]. simpl.
  rewrite filter_sort_insert. simpl. by rewrite IH.
Qed.
End Stable.

Lemma NoDup_map_inj_on {A B} (f : A -> B) (l : list A) (x y : A) :
  NoDup (map f l) -> x ∈ l -> y ∈ l -> f x = f y -> x = y.
Proof.
  induction l as [|z l IH]; simpl; [by intros _ ?%elem_of_nil|].
  rewrite NoDup_cons. intros [Hnotin Hnd] Hx Hy Hf.
  apply elem_of_cons in Hx as [->|Hx]; apply elem_of_cons in Hy as [->|Hy].
  - done.
  - destruct Hnotin. rewrite Hf. apply list_elem_of_In, in_map.
    by apply list_elem_of_In.
  - destruct Hnotin. rewrite <- Hf. apply list_elem_of_In, in_map.
    by apply list_elem_of_In.
  - by apply IH.
Qed.

Lemma handleSort_on_sort_column column term dir sel mode n size :
  handleSort column (mkState term column dir sel mode n size)
  = mkState term column
      (match dir with asc => desc | desc => null | null => asc end)
      sel mode n size.
Proof.
  unfold handleSort. simpl. rewrite decide_True by done. by destruct dir.
Qed.

Lemma handleSort_same_column (column : Column.t) (st : State) :
  sortColumn st = column ->
  handleSort column (handleSort column (handleSort column st)) = st.
Proof.
  intros <-. destruct st as [term col dir sel mode n size]. simpl.
  rewrite !handleSort_on_sort_column. by destruct dir.
Qed.

(** X10: the sort header is a three-state switch.  An activation of a
    header makes its column the sort column and changes nothing but the
    sort column and the sort direction; on a column that was not the sort
    column the direction becomes ascending, whatever it was; and from then
    on three more activations of the same header lead back to the same
    state. *)
Theorem handleSort_three_state_switch (column : Column.t) (st : State) :
  let st1 := handleSort column st in
  sortColumn st1 = column
  /\ (sortColumn st <> column -> sortDirection st1 = asc)
  /\ searchTerm st1 = searchTerm st
  /\ selectedRows st1 = selectedRows st
  /\ selectionMode st1 = selectionMode st
  /\ currentPage st1 = currentPage st
  /\ pageSize st1 = pageSize st
  /\ sortDirection st1 <> sortDirection (handleSort column st1)
  /\ sortDirection st1 <> sortDirection (handleSort column (handleSort column st1))
  /\ handleSort column (handleSort column (handleSort column st1)) = st1.
Proof.
  assert (sortColumn (handleSort column st) = column) as Hcol.
  { unfold handleSort. destruct (decide (sortColumn st = column)) as [<-|Hne].
    - by destruct (decide (sortDirection st = desc)).
    - done. }
  cbv zeta. split; [done|]. split.
  { intros Hne. unfold handleSort. by rewrite decide_False. }
  assert (forall st', sortColumn st' = column ->
            sortDirection st' <> sortDirection (handleSort column st')
            /\ sortDirection st'
               <> sortDirection (handleSort column (handleSort column st')))
    as Hchange.
  { intros st' <-. destruct st' as [term col dir sel mode n size]. simpl.
    rewrite !handleSort_on_sort_column. simpl. by destruct dir. }
  destruct (Hchange _ Hcol) as [H1 H2].
  repeat split; try done.
  - unfold handleSort. destruct (decide (sortColumn st = column)); [|done].
    by destruct (decide (sortDirection st = desc)).
  - unfold handleSort. destruct (decide (sortColumn st = column)); [|done].
    by destruct (decide (sortDirection st = desc)).
  - unfold handleSort. destruct (decide (sortColumn st = column)); [|done].
    by destruct (decide (sortDirection st = desc)).
  - unfold handleSort. destruct (decide (sortColumn st = column)); [|done].
    by destruct (decide (sortDirection st = desc)).
  - unfold handleSort. destruct (decide (sortColumn st = column)); [|done].
    by destruct (decide (sortDirection st = desc)).
  - by apply handleSort_same_column.
Qed.

Section Pipeline.
Variable localeCompare : string -> string -> Z.
Variable employees : list Employee.t.

Abbreviation rows := (filteredAndSortedEmployees localeCompare employees).
Abbreviation page := (paginatedEmployees localeCompare employees).
Abbreviation pages := (totalPages localeCompare employees).
Abbreviation filtered st := (List.filter (matches (searchTerm st)) employees).

(** X11: sorting never adds, drops or duplicates a row: for every sort
    column and sort direction the rows are a permutation of the filtered
    rows, so the number of rows and the number of pages do not depend on
    the sort state; and a row is shown exactly when it was fetched and
    matches the search term. *)
Theorem sorting_keeps_the_rows (st : State) (column : Column.t)
    (direction : SortDirection) :
  let st' := setSortDirection direction (setSortColumn column st) in
  Permutation (filtered st) (rows st')
  /\ length (rows st') = length (rows st)
  /\ pages st' = pages st
  /\ (forall employee,
        In employee (rows st')
        <-> In employee employees /\ matches (searchTerm st) employee = true).
Proof.
  cbv zeta.
  pose proof (DataTableSpec.rows_perm localeCompare employees
                (setSortDirection direction (setSortColumn column st))) as Hperm.
  pose proof (DataTableSpec.rows_perm localeCompare employees st) as Hperm0.
  simpl in Hperm.
  assert (length (rows (setSortDirection direction (setSortColumn column st)))
          = length (rows st)) as Hlen.
  { rewrite <- (Permutation_length Hperm). by apply Permutation_length. }
  split; [done|]. split; [done|]. split.
  - unfold totalPages. simpl. by rewrite Hlen.
  - intros employee.
    by rewrite (DataTableSpec.rows_In localeCompare employees).
Qed.

(** X12: the sort is stable: rows with the same salary stay in the order
    the filtered rows have them in, whether the salary column is sorted
    ascending, descending or not at all. *)
Theorem salary_sort_is_stable (st : State) (amount : Z) :
  sortColumn st = Column.salary ->
  List.filter (fun employee => Employee.salary employee =? amount) (rows st)
  = List.filter (fun employee => Employee.salary employee =? amount)
      (filtered st).
Proof.
  intros Hcol. unfold filteredAndSortedEmployees. rewrite Hcol.
  destruct (sortDirection st); [| |done]; apply filter_sort;
    intros a b Ha%Z.eqb_eq Hb%Z.eqb_eq; unfold compareFn; simpl; lia.
Qed.

(** X13: when no two filtered rows have the same salary, the rows in
    descending order of salary are the rows in ascending order of salary,
    reversed. *)
Theorem salary_descending_is_ascending_reversed (st : State) :
  sortColumn st = Column.salary ->
  NoDup (map Employee.salary (filtered st)) ->
  rows (setSortDirection desc st) = reverse (rows (setSortDirection asc st)).
Proof.
  intros Hcol Hnd.
  pose proof (DataTableSpec.rows_perm localeCompare employees
                (setSortDirection desc st)) as Hpd.
  pose proof (DataTableSpec.rows_perm localeCompare employees
                (setSortDirection asc st)) as Hpa.
  simpl in Hpd, Hpa.
  pose proof (DataTableSpec.rows_descending_by_salary localeCompare employees
                (setSortDirection desc st) Hcol eq_refl) as Hsd.
  pose proof (DataTableSpec.rows_ascending_by_salary localeCompare employees
                (setSortDirection asc st) Hcol eq_refl) as Hsa.
  apply Sorted_reverse in Hsa.
  assert (Transitive
            (fun a b : Employee.t => Employee.salary b <= Employee.salary a))
    as Htrans by (intros x y z; lia).
  eapply (Sorted_unique_strong
            (fun a b => Employee.salary b <= Employee.salary a)).
  - intros x1 x2 Hx1 Hx2 H12 H21.
    apply (NoDup_map_inj_on Employee.salary (filtered st)); [done| | |lia].
    + by rewrite Hpd.
    + rewrite Hpa. by apply elem_of_reverse.
  - exact Hsd.
  - exact Hsa.
  - rewrite reverse_Permutation, <- Hpd. exact Hpa.
Qed.

(** X14: on a column of texts the rows come out in the order of
    [localeCompare], provided [localeCompare] puts [y] before [x] whenever it
    puts [x] after [y]: ascending when the direction is [asc], descending when
    it is [desc]. *)
Theorem text_sort_follows_localeCompare (st : State) (column : Column.t) :
  (forall x y, localeCompare x y > 0 -> localeCompare y x < 0) ->
  (forall employee,
     prop employee column = JsString (text_of column employee)) ->
  sortColumn st = column ->
  (sortDirection st = asc ->
   Sorted (fun a b =>
             localeCompare (text_of column a) (text_of column b) <= 0)
     (rows st))
  /\ (sortDirection st = desc ->
      Sorted (fun a b =>
                localeCompare (text_of column b) (text_of column a) <= 0)
        (rows st)).
Proof.
  intros Hanti Htext Hcol. unfold filteredAndSortedEmployees. rewrite Hcol.
  split; intros ->; apply DataTableSpec.sort_Sorted; intros a b;
    unfold compareFn; rewrite !Htext; simpl; intros Hcmp.
  - apply Hanti in Hcmp. lia.
  - lia.
  - lia.
  - destruct (Z_le_gt_dec (localeCompare (text_of column b) (text_of column a)) 0)
      as [|Hgt]; [done|]. apply Hanti in Hgt. lia.
Qed.

End Pipeline.

(** ** Pages *)

Lemma ceil_div_lower (a b : Z) : 0 < b -> ceil_div a b * b < a + b.
Proof.
  intros Hb. unfold ceil_div.
  pose proof (Z.div_mod (- a) b ltac:(lia)).
  pose proof (Z.mod_pos_bound (- a) b Hb). nia.
Qed.

Lemma ceil_div_pos (a b : Z) : 0 < a -> 0 < b -> 1 <= ceil_div a b.
Proof.
  intros Ha Hb. pose proof (DataTableSpec.ceil_div_upper a b Hb). nia.
Qed.

Lemma In_slice {A} (l : list A) (start end_ : Z) (x : A) :
  In x (slice l start end_) -> In x l.
Proof.
  unfold slice. intros Hin. apply list_elem_of_In in Hin.
  apply list_elem_of_In. by apply subseteq_take, subseteq_drop in Hin.
Qed.

Lemma NoDup_map_filter {A B} (f : A -> B) (p : A -> bool) (l : list A) :
  NoDup (map f l) -> NoDup (map f (List.filter p l)).
Proof.
  induction l as [|x l IH]; simpl; [done|].
  rewrite NoDup_cons. intros [Hnotin Hnd].
  destruct (p x); simpl; [|by apply IH].
  apply NoDup_cons. split; [|by apply IH].
  intros Hin. apply Hnotin. apply list_elem_of_In in Hin.
  apply in_map_iff in Hin as (y & Hy & Hin).
  apply filter_In in Hin as [Hin _].
  apply list_elem_of_In, in_map_iff. eauto.
Qed.

Lemma lower_char_is_lowered (c : ascii) :
  Ascii.eqb (lower_char c) capital_sigma = false
  /\ lower_char (lower_char c) = lower_char c.
Proof. destruct c as [[] [] [] [] [] [] [] []]; split; reflexivity. Qed.

(** What [toLowerCase] gives holds no capital sigma, and every character
    of it is its own lower case. *)
Lemma lower_from_is_lowered (before s : string) :
  has_capital_sigma (lower_from before s) = false
  /\ lower_chars (lower_from before s) = lower_from before s.
Proof.
  revert before. induction s as [|c s IH]; intros before; [done|]. simpl.
  destruct (IH (String c before)) as [Hsigma Hlower].
  rewrite Hsigma, Hlower.
  destruct (Ascii.eqb c capital_sigma && is_final_sigma before s).
  - done.
  - destruct (lower_char_is_lowered c) as [-> ->]. done.
Qed.

Lemma toLowerCase_idemp (s : string) :
  toLowerCase (toLowerCase s) = toLowerCase s.
Proof.
  unfold toLowerCase.
  destruct (lower_from_is_lowered EmptyString s) as [Hsigma Hlower].
  by rewrite DataTableSpec.lower_from_without_sigma.
Qed.

Section Pages.
Variable localeCompare : string -> string -> Z.
Variable employees : list Employee.t.

Abbreviation rows := (filteredAndSortedEmployees localeCompare employees).
Abbreviation page := (paginatedEmployees localeCompare employees).
Abbreviation pages := (totalPages localeCompare employees).

Lemma page_length_formula (st : State) :
  0 < pageSize st -> 1 <= currentPage st ->
  Z.of_nat (length (page st))
  = Z.max 0 (Z.min (pageSize st)
               (Z.of_nat (length (rows st))
                - (currentPage st - 1) * pageSize st)).
Proof.
  intros Hsize Hpage. unfold paginatedEmployees.
  rewrite DataTableSpec.slice_page by done.
  rewrite length_take, length_drop.
  assert (0 <= (currentPage st - 1) * pageSize st) by nia. lia.
Qed.

(** X15: a page never holds more rows than the page size; every page
    before the last one is full, the last page holds between one row and a
    full page, and a page after the last one is empty. *)
Theorem page_lengths (st : State) :
  0 < pageSize st -> 1 <= currentPage st ->
  Z.of_nat (length (page st)) <= pageSize st
  /\ (currentPage st < pages st ->
      Z.of_nat (length (page st)) = pageSize st)
  /\ (currentPage st = pages st ->
      1 <= Z.of_nat (length (page st)))
  /\ (pages st < currentPage st -> page st = []).
Proof.
  intros Hsize Hpage. rewrite page_length_formula by done.
  unfold totalPages.
  set (len := Z.of_nat (length (rows st))).
  pose proof (DataTableSpec.ceil_div_upper len (pageSize st) Hsize) as Hup.
  pose proof (ceil_div_lower len (pageSize st) Hsize) as Hlow.
  split; [lia|]. split; [|split].
  - intros Hlt. nia.
  - intros Heq. nia.
  - intros Hgt. apply DataTableSpec.slice_beyond. fold len. nia.
Qed.

(** X16: what a page shows are fetched rows that match the search term,
    and when the fetched rows have pairwise different ids, so have the rows
    of the page. *)
Theorem page_shows_matching_rows (st : State) :
  (forall employee,
     In employee (page st) ->
     In employee employees /\ matches (searchTerm st) employee = true)
  /\ (NoDup (map Employee.id employees) ->
      NoDup (pageIds localeCompare employees st)).
Proof.
  split.
  - intros employee Hin. apply In_slice in Hin.
    by apply (DataTableSpec.rows_In localeCompare employees) in Hin.
  - intros Hnd. unfold pageIds, paginatedEmployees, slice.
    change (map Employee.id) with (fmap (M := list) Employee.id).
    rewrite fmap_take, fmap_drop.
    eapply sublist_NoDup; [|apply sublist_take].
    eapply sublist_NoDup; [|apply sublist_drop].
    assert (Employee.id
              <$> List.filter (matches (searchTerm st)) employees
            ≡ₚ Employee.id <$> rows st) as <-.
    { apply fmap_Permutation.
      apply (DataTableSpec.rows_perm localeCompare employees st). }
    by apply NoDup_map_filter.
Qed.

(** X17: the search does not depend on the case of the search term: two
    search terms with the same lower-case form give the same rows, so a
    term and its lower-case form do. *)
Theorem search_ignores_case (st : State) (term : string) :
  rows (setSearchTerm (toLowerCase term) st) = rows (setSearchTerm term st)
  /\ (forall other, toLowerCase other = toLowerCase term ->
        rows (setSearchTerm other st) = rows (setSearchTerm term st)).
Proof.
  assert (forall other, toLowerCase other = toLowerCase term ->
            rows (setSearchTerm other st) = rows (setSearchTerm term st))
    as Hsame.
  { intros other Hlower. unfold filteredAndSortedEmployees. simpl.
    assert (forall employee, matches other employee = matches term employee)
      as Hmatch by (intros employee; unfold matches; by rewrite Hlower).
    by rewrite (filter_ext _ _ Hmatch). }
  split; [|exact Hsame]. apply Hsame, toLowerCase_idemp.
Qed.

(** X18: the pagination buttons keep the page index on a page that exists.
    With rows to show, Next leads to a page between 1 and the last page,
    also from a page beyond the last one, which it brings back to the last
    page; Previous never leads below page 1 and, from a page that exists, leads
    to a page that exists; each numbered button and the button of the last
    page lead to a page that exists; and a page that exists shows at
    least one row. *)
Theorem pagination_buttons_stay_in_range (st : State) :
  0 < pageSize st -> rows st <> [] -> 1 <= currentPage st ->
  (1 <= currentPage (nextPage localeCompare employees st) <= pages st)
  /\ (pages st <= currentPage st ->
      currentPage (nextPage localeCompare employees st) = pages st)
  /\ 1 <= currentPage (previousPage st)
  /\ (currentPage st <= pages st -> currentPage (previousPage st) <= pages st)
  /\ (forall n, n ∈ pageButtons localeCompare employees st ->
        1 <= n <= pages st)
  /\ (1 <= currentPage (lastPage localeCompare employees st) <= pages st)
  /\ (forall n, 1 <= n <= pages st -> page (setCurrentPage n st) <> []).
Proof.
  intros Hsize Hrows Hpage.
  assert (0 < Z.of_nat (length (rows st))) as Hlen
    by (destruct (rows st); [done | simpl; lia]).
  assert (1 <= pages st) as Hpages by (by apply ceil_div_pos).
  unfold nextPage, previousPage, lastPage, pageButtons. simpl.
  split; [lia|]. split; [lia|]. split; [lia|]. split; [lia|].
  split; [|split; [lia|]].
  - intros n Hn. apply list_elem_of_lookup in Hn as [i Hi].
    apply lookup_seqZ in Hi. lia.
  - intros n [Hn1 Hn2] Hempty.
    assert (Z.of_nat (length (page (setCurrentPage n st))) = 0) as Hzero
      by (by rewrite Hempty).
    rewrite page_length_formula in Hzero by done. simpl in Hzero.
    change (rows (setCurrentPage n st)) with (rows st) in Hzero.
    pose proof (ceil_div_lower (Z.of_nat (length (rows st))) (pageSize st) Hsize)
      as Hlow.
    fold (pages st) in Hlow. nia.
Qed.

End Pages.

(** ** Selection *)

(** X19: in selection mode 'multiple' a row-selection event changes the
    membership of its own row only; checking a row twice is checking it
    once; and checking and then unchecking a row that was not selected
    gives back the selection set from before. *)
Theorem multiple_mode_toggles_one_row (st : State) (employeeId : string)
    (checked : bool) :
  selectionMode st = multiple ->
  (employeeId ∈ selectedRows (handleRowSelection employeeId checked st)
   <-> checked = true)
  /\ (forall other, other <> employeeId ->
        other ∈ selectedRows (handleRowSelection employeeId checked st)
        <-> other ∈ selectedRows st)
  /\ handleRowSelection employeeId checked
       (handleRowSelection employeeId checked st)
     = handleRowSelection employeeId checked st
  /\ (employeeId ∉ selectedRows st ->
      handleRowSelection employeeId false
        (handleRowSelection employeeId true st) = st).
Proof.
  intros Hmode. destruct st as [term col dir sel mode n size].
  simpl in Hmode. subst mode. unfold handleRowSelection, setSelectedRows. simpl.
  split; [|split; [|split]].
  - destruct checked.
    + rewrite elem_of_union, elem_of_singleton. tauto.
    + rewrite elem_of_difference, elem_of_singleton. split; [tauto|done].
  - intros other Hne. destruct checked.
    + rewrite elem_of_union, elem_of_singleton. tauto.
    + rewrite elem_of_difference, elem_of_singleton. tauto.
  - f_equal. apply set_eq. intros x. destruct checked.
    + rewrite !elem_of_union, elem_of_singleton. tauto.
    + rewrite !elem_of_difference, elem_of_singleton. tauto.
  - intros Hnotin. f_equal. apply set_eq. intros x.
    rewrite elem_of_difference, elem_of_union, elem_of_singleton.
    split; [tauto|]. intros Hx. split; [tauto|]. by intros ->.
Qed.

Lemma multiple_mode_toggles_one_row_witness :
  handleRowSelection "3" false (handleRowSelection "3" true initial) = initial.
Proof.
  refine (proj2 (proj2 (proj2 (multiple_mode_toggles_one_row initial "3" true _))) _).
  - reflexivity.
  - apply not_elem_of_empty.
Defined.

(** X20: deleting a row takes its id out of the selection set and leaves
    every other id in or out as it was, in every selection mode, also in
    mode 'none'; nothing else of the state changes. *)
Theorem handleDelete_unselects_the_row (st : State) (id : string) :
  (id ∉ selectedRows (handleDelete id st))
  /\ (forall other, other <> id ->
        other ∈ selectedRows (handleDelete id st) <-> other ∈ selectedRows st)
  /\ (size (selectedRows (handleDelete id st)) <= size (selectedRows st))%nat
  /\ setSelectedRows (selectedRows st) (handleDelete id st) = st.
Proof.
  unfold handleDelete. simpl. split; [|split; [|split]].
  - rewrite elem_of_difference, elem_of_singleton. tauto.
  - intros other Hne. rewrite elem_of_difference, elem_of_singleton. tauto.
  - apply subseteq_size. intros x. rewrite elem_of_difference. tauto.
  - by destruct st.
Qed.

Section HeaderCheckbox.
Variable localeCompare : string -> string -> Z.
Variable employees : list Employee.t.

Abbreviation page := (paginatedEmployees localeCompare employees).

Lemma selectAllChecked_true (st : State) :
  selectAllChecked localeCompare employees st = true
  <-> page st <> []
      /\ forall employee, In employee (page st) ->
           Employee.id employee ∈ selectedRows st.
Proof.
  unfold selectAllChecked. rewrite andb_true_iff, forallb_forall.
  rewrite Nat.ltb_lt. split; intros [Hlen Hall]; split.
  - intros Hnil. rewrite Hnil in Hlen. simpl in Hlen. lia.
  - intros employee Hin. specialize (Hall _ Hin).
    by apply bool_decide_eq_true in Hall.
  - destruct (page st); [done | simpl; lia].
  - intros employee Hin. by apply bool_decide_eq_true_2, Hall.
Qed.

(** X21: the header checkbox follows 'select all'.  In selection mode
    'multiple', on a page with rows, it is checked after 'select all' with
    checked = true, and it is no longer checked once a row of the page is
    unchecked; 'select all' with checked = false empties the selection set,
    the ids of other pages included, and leaves the header checkbox
    unchecked. *)
Theorem header_checkbox_follows_select_all (st : State) :
  selectionMode st = multiple -> page st <> [] ->
  selectAllChecked localeCompare employees
    (handleSelectAll localeCompare employees true st) = true
  /\ (forall employee, In employee (page st) ->
        selectAllChecked localeCompare employees
          (handleRowSelection (Employee.id employee) false
             (handleSelectAll localeCompare employees true st)) = false)
  /\ selectedRows (handleSelectAll localeCompare employees false st) = ∅
  /\ selectAllChecked localeCompare employees
       (handleSelectAll localeCompare employees false st) = false.
Proof.
  intros Hmode Hrows.
  assert (forall checked,
            page (handleSelectAll localeCompare employees checked st) = page st)
    as Hpage by (intros checked; unfold handleSelectAll; by rewrite Hmode).
  split; [|split; [|split]].
  - apply selectAllChecked_true. rewrite Hpage. split; [done|].
    intros employee Hin.
    rewrite DataTableSpec.handleSelectAll_checked by done.
    apply elem_of_list_to_set, list_elem_of_In. unfold pageIds. by apply in_map.
  - intros employee Hin.
    destruct (selectAllChecked _ _ _) eqn:Hchecked; [|done].
    apply selectAllChecked_true in Hchecked as [_ Hall].
    assert (In employee
              (page (handleRowSelection (Employee.id employee) false
                       (handleSelectAll localeCompare employees true st))))
      as Hin'.
    { change (In employee
                (page (handleSelectAll localeCompare employees true st))).
      by rewrite Hpage. }
    apply Hall in Hin'. revert Hin'.
    unfold handleRowSelection, handleSelectAll. rewrite Hmode. simpl.
    rewrite Hmode. simpl.
    rewrite elem_of_difference, elem_of_singleton. tauto.
  - unfold handleSelectAll. by rewrite Hmode.
  - destruct (selectAllChecked _ _ _) eqn:Hchecked; [|done].
    apply selectAllChecked_true in Hchecked as [Hnonempty Hall].
    rewrite Hpage in Hnonempty, Hall.
    destruct (page st) as [|employee rest] eqn:Hp; [done|].
    specialize (Hall employee (or_introl eq_refl)). revert Hall.
    unfold handleSelectAll. rewrite Hmode. simpl.
    intros Hin. by apply not_elem_of_empty in Hin.
Qed.

End HeaderCheckbox.

Lemma header_checkbox_follows_select_all_witness :
  selectAllChecked ordinalCompare sampleRows
    (handleSelectAll ordinalCompare sampleRows true initial) = true
  /\ selectedRows (handleSelectAll ordinalCompare sampleRows false initial) = ∅.
Proof.
  destruct (header_checkbox_follows_select_all ordinalCompare sampleRows initial)
    as (Hchecked & _ & Hempty & _).
  - reflexivity.
  - vm_compute. discriminate.
  - by split.
Defined.

(** ** The states the events lead to *)

Lemma enabled_footer_controls localeCompare q ev st :
  enabled localeCompare q ev st = true ->
  match ev with
  | ChangePageSize _ | ClickPrevious | ClickNext | ClickPage _
  | ClickLastPage =>
      filteredAndSortedEmployees localeCompare (data q) st <> []
  | _ => True
  end.
Proof.
  assert (footerShown localeCompare q st = true ->
          filteredAndSortedEmployees localeCompare (data q) st <> []) as Hfooter.
  { unfold footerShown. rewrite !andb_true_iff, Nat.ltb_lt.
    intros [_ Hlen] Hnil. rewrite Hnil in Hlen. simpl in Hlen. lia. }
  destruct ev; simpl; try done; rewrite andb_true_iff; intros [H _]; auto.
Qed.

(** X22: whatever the user does, and whatever the query holds meanwhile,
    the page size is one of 10, 25, 50 and 100, hence positive, the page
    index is at least 1, and the sort column is one of the five columns
    with a sort header. *)
Theorem reachable_states_are_well_formed
    (localeCompare : string -> string -> Z) (st : State) :
  reachable localeCompare st ->
  pageSize st ∈ pageSizes
  /\ 0 < pageSize st
  /\ 1 <= currentPage st
  /\ sortColumn st ∈ sortableColumns.
Proof.
  assert (forall size, size ∈ pageSizes -> 0 < size) as Hpos.
  { intros size Hin. unfold pageSizes in Hin.
    repeat (apply elem_of_cons in Hin as [->|Hin]; [lia|]).
    by apply elem_of_nil in Hin. }
  induction 1 as [|q ev st Hreach (Hsize & Hsize0 & Hpage & Hcol) Hen].
  - split; [|split; [|split]]; [|done|done|].
    + unfold pageSizes. simpl. apply list_elem_of_In. simpl. tauto.
    + unfold sortableColumns. simpl. apply list_elem_of_In. simpl. tauto.
  - pose proof (enabled_footer_controls _ _ _ _ Hen) as Hrows.
    destruct ev; simpl in *;
      try (split; [|split; [|split]]; done).
    + (* ClickHeader *)
      apply andb_true_iff in Hen as [_ Hcolumn%bool_decide_eq_true].
      assert (pageSize (handleSort column st) = pageSize st
              /\ currentPage (handleSort column st) = currentPage st
              /\ sortColumn (handleSort column st) = column)
        as (-> & -> & ->); [|done].
      unfold handleSort. destruct (decide (sortColumn st = column)) as [<-|].
      * by destruct (decide (sortDirection st = desc)).
      * done.
    + (* ToggleAll *)
      unfold handleSelectAll. by destruct (selectionMode st).
    + (* ChangePageSize *)
      apply andb_true_iff in Hen as [_ Hin%bool_decide_eq_true].
      split; [done|]. split; [by apply Hpos|]. done.
    + (* ClickPrevious *)
      split; [done|]. split; [done|]. split; [lia|done].
    + (* ClickNext *)
      split; [done|]. split; [done|]. split; [|done].
      assert (1 <= totalPages localeCompare (data q) st).
      { apply ceil_div_pos; [|done].
        destruct (filteredAndSortedEmployees localeCompare (data q) st);
          [done | simpl; lia]. }
      lia.
    + (* ClickPage *)
      apply andb_true_iff in Hen as [_ Hin%bool_decide_eq_true].
      split; [done|]. split; [done|]. split; [|done].
      unfold pageButtons in Hin.
      apply list_elem_of_lookup in Hin as [i Hi].
      apply lookup_seqZ in Hi. lia.
    + (* ClickLastPage *)
      apply andb_true_iff in Hen as [_ Hlast].
      unfold lastPageShown in Hlast. apply Z.ltb_lt in Hlast.
      split; [done|]. split; [done|]. split; [lia|done].
Qed.

Lemma reachable_states_are_well_formed_witness :
  0 < pageSize (handle ordinalCompare (mkQuery sampleRows false false)
                  (ChangePageSize 25) initial)
  /\ 1 <= currentPage (handle ordinalCompare (mkQuery sampleRows false false)
                         (ChangePageSize 25) initial).
Proof.
  destruct (reachable_states_are_well_formed ordinalCompare
              (handle ordinalCompare (mkQuery sampleRows false false)
                 (ChangePageSize 25) initial))
    as (_ & Hsize & Hpage & _).
  - apply reachable_handle; [apply reachable_initial|].
    vm_compute. reflexivity.
  - by split.
Defined.

(** ** The extra properties on the sample rows *)

(** With one salary for all, sorting by salary keeps the fetched order. *)
Lemma salary_sort_is_stable_witness :
  List.filter (fun employee => Employee.salary employee =? 80000)
    (filteredAndSortedEmployees ordinalCompare sampleRowsOnePay initial)
  = sampleRowsOnePay.
Proof.
  rewrite (salary_sort_is_stable ordinalCompare sampleRowsOnePay initial 80000)
    by reflexivity.
  reflexivity.
Defined.

Lemma salary_descending_is_ascending_reversed_witness :
  sampleView (setSortDirection desc initial)
  = reverse (sampleView (setSortDirection asc initial)).
Proof.
  apply (salary_descending_is_ascending_reversed ordinalCompare sampleRows
           initial).
  - reflexivity.
  - refine (@bool_decide_unpack _ (NoDup_dec _) _). vm_compute. exact I.
Defined.

Lemma ordinalCompare_antisym (x y : string) :
  ordinalCompare x y > 0 -> ordinalCompare y x < 0.
Proof.
  unfold ordinalCompare. rewrite (String.compare_antisym y x).
  destruct (String.compare x y); simpl; lia.
Qed.

Lemma text_sort_follows_localeCompare_witness :
  Sorted (fun a b =>
            ordinalCompare (text_of Column.name a) (text_of Column.name b) <= 0)
    (sampleView (handleSort Column.name initial)).
Proof.
  refine (proj1 (text_sort_follows_localeCompare ordinalCompare sampleRows
                   (handleSort Column.name initial) Column.name
                   ordinalCompare_antisym _ _) _); reflexivity.
Defined.

Lemma page_lengths_witness :
  Z.of_nat (length (samplePage (setPageSize 2 initial))) = 2
  /\ 1 <= Z.of_nat
            (length (samplePage (setCurrentPage 3 (setPageSize 2 initial)))).
Proof.
  split.
  - refine (proj1 (proj2 (page_lengths ordinalCompare sampleRows
                            (setPageSize 2 initial) _ _)) _);
      [reflexivity | vm_compute; discriminate | reflexivity].
  - refine (proj1 (proj2 (proj2 (page_lengths ordinalCompare sampleRows
                                   (setCurrentPage 3 (setPageSize 2 initial))
                                   _ _))) _);
      [reflexivity | vm_compute; discriminate | reflexivity].
Defined.

(** Page 2 of the initial view does not exist; Next leads back to page 1. *)
Lemma pagination_buttons_stay_in_range_witness :
  currentPage (nextPage ordinalCompare sampleRows (setCurrentPage 2 initial)) = 1.
Proof.
  refine (proj1 (proj2 (pagination_buttons_stay_in_range ordinalCompare
                          sampleRows (setCurrentPage 2 initial) _ _ _)) _).
  - reflexivity.
  - vm_compute. discriminate.
  - vm_compute. discriminate.
  - vm_compute. discriminate.
Defined.

End DataTableExtra.
